(** * get_med_metfcst: harmonisation of the CFSv2 90-day forecast grids

    A shallow embedding of
    [tools/bin/ecflow/processes/main/meteorological/get_med_metfcst.py]
    and the properties of its pipeline: fetch, merge, unit and fill-value
    normalisation, tmin/tmax consistency, forecast window, regridding.

    Cell values are IEEE-754 numbers ([spec_float], with NaN and the
    infinities), binary64 or binary32 by the dtype of the array, or
    integers; numpy's element-wise operations are functions on the
    flattened, C-ordered list of cells.  Datasets are finite maps from
    variable names to labelled arrays.  Exceptions are an error result.

    The script is one function, [main], over the libraries numpy, xarray,
    cf_units, datetime, pandas and os; each library is embedded by the
    part of its behaviour [main] relies on, under the library's own names.
    The THREDDS server and the files are the state of the world; the CDO
    engine is a parameter. *)

From Stdlib Require Import ZArith Bool List Lia Ascii.
From Stdlib Require Import Floats.SpecFloat.
From stdpp Require Import gmap strings list fin_maps.

Local Open Scope Z_scope.

(** ** Binary64 cell values *)

Module F64.

Definition prec : Z := 53.
Definition emax : Z := 1024.

Definition of_Z (n : Z) : spec_float := binary_normalize prec emax n 0 false.

Definition add := SFadd prec emax.
Definition sub := SFsub prec emax.
Definition mul := SFmul prec emax.
Definition div := SFdiv prec emax.

(** [num / den] rounded to nearest: the value of a decimal literal. *)
Definition of_ratio (num den : Z) : spec_float := div (of_Z num) (of_Z den).

Definition is_nan (x : spec_float) : bool :=
  match x with S754_nan => true | _ => false end.

(** Python's comparison operators on floats. *)
Definition lt (x y : spec_float) : bool := SFltb x y.
Definition gt (x y : spec_float) : bool := SFltb y x.
Definition le (x y : spec_float) : bool := SFleb x y.
Definition eq (x y : spec_float) : bool := SFeqb x y.
Definition ne (x y : spec_float) : bool := negb (SFeqb x y).

End F64.

Abbreviation float := spec_float.

#[global] Instance float_eq_dec : EqDecision float.
Proof. solve_decision. Defined.

(** ** Binary32 cell values

    A cell of a float32 array is kept as the binary64 number of the same
    value (every binary32 number is one, so comparisons are those of
    [F64]); storing a binary64 number into a float32 array rounds it to
    the nearest binary32 number, ties to even. *)

Module F32.

Definition prec : Z := 24.
Definition emax : Z := 128.

(** [(float)x] in C, [np.float32(x)] in numpy. *)
Definition round (x : float) : float :=
  match x with
  | S754_finite s m e =>
      match binary_round prec emax s m e with
      | S754_finite s' m' e' => binary_round F64.prec F64.emax s' m' e'
      | y => y
      end
  | _ => x
  end.

End F32.

(** The literal [-32767.] of lines 86 and 93, and [-30000] of line 86
    (an int, compared as a float). *)
Definition fill_value : float := Eval vm_compute in F64.of_Z (-32767).
Definition threshold : float := Eval vm_compute in F64.of_Z (-30000).

(** ** numpy: element-wise operations on flattened arrays *)

Module np.

(** [a < c] for a scalar [c]. *)
Definition less_scalar (a : list float) (c : float) : list bool :=
  map (fun x => F64.lt x c) a.

(** [a != c] for a scalar [c]. *)
Definition not_equal_scalar (a : list float) (c : float) : list bool :=
  map (fun x => F64.ne x c) a.

(** [a > b], both of one shape. *)
Definition greater (a b : list float) : list bool :=
  zip_with F64.gt a b.

(** [m1 & m2] on boolean arrays. *)
Definition logical_and (m1 m2 : list bool) : list bool :=
  zip_with andb m1 m2.

(** [a[mask]]: the selected cells, in C order. *)
Fixpoint getitem_mask {A} (a : list A) (mask : list bool) : list A :=
  match a, mask with
  | x :: a', m :: mask' =>
      if m then x :: getitem_mask a' mask' else getitem_mask a' mask'
  | _, _ => []
  end.

(** [a[mask] = rhs]: the cells of [rhs] are stored, in order, at the
    selected positions. *)
Fixpoint setitem_mask {A} (a : list A) (mask : list bool) (rhs : list A)
  : list A :=
  match a, mask with
  | x :: a', m :: mask' =>
      if m then
        match rhs with
        | r :: rhs' => r :: setitem_mask a' mask' rhs'
        | [] => x :: setitem_mask a' mask' []
        end
      else x :: setitem_mask a' mask' rhs
  | _, _ => a
  end.

(** [a[mask] = c] for a scalar [c]. *)
Fixpoint setitem_mask_scalar {A} (a : list A) (mask : list bool) (c : A)
  : list A :=
  match a, mask with
  | x :: a', m :: mask' =>
      (if m then c else x) :: setitem_mask_scalar a' mask' c
  | _, _ => a
  end.

End np.

(** ** Exceptions *)

Inductive exn : Type :=
| KeyError (key : string)
| ValueError (msg : string)
| TypeError
| IndexError
| OverflowError
| MergeError
| OSError (path : string)
| FileNotFoundError (path : string)
| CDOException.

Inductive result (A : Type) : Type :=
| Ok (a : A)
| Raise (e : exn).
Arguments Ok {A} a.
Arguments Raise {A} e.

#[global] Instance result_ret : MRet result := @Ok.
#[global] Instance result_bind : MBind result :=
  fun A B f r => match r with Ok a => f a | Raise e => Raise e end.

Definition from_option {A} (e : exn) (o : option A) : result A :=
  match o with Some a => Ok a | None => Raise e end.

(** ** xarray: labelled arrays and datasets *)

Module xr.

(** The cells of an array, flattened in C order, by dtype: [float64];
    [float32], each cell the binary64 number of the same value; an
    integer dtype; [datetime64[ns]] (nanoseconds since 1970-01-01, as
    int64) for the time axis. *)
Inductive nddata : Type :=
| Floats (xs : list float)
| Floats32 (xs : list float)
| Ints (xs : list Z)
| Datetimes (xs : list Z).

Record DataArray : Type := mkDataArray {
  dims : list string;
  shape : list nat;
  data : nddata;
  attrs : gmap string string
}.

(** Number of cells. *)
Definition size (d : nddata) : nat :=
  match d with
  | Floats xs => length xs
  | Floats32 xs => length xs
  | Ints xs => length xs
  | Datetimes xs => length xs
  end.

(** [a.flat[k]], as an array of one cell. *)
Definition item (d : nddata) (k : nat) : option nddata :=
  match d with
  | Floats xs => (fun x => Floats [x]) <$> xs !! k
  | Floats32 xs => (fun x => Floats32 [x]) <$> xs !! k
  | Ints xs => (fun x => Ints [x]) <$> xs !! k
  | Datetimes xs => (fun x => Datetimes [x]) <$> xs !! k
  end.

Definition set_data (v : DataArray) (d : nddata) : DataArray :=
  mkDataArray (dims v) (shape v) d (attrs v).

Definition set_attr (v : DataArray) (k s : string) : DataArray :=
  mkDataArray (dims v) (shape v) (data v) (<[k := s]> (attrs v)).

Definition set_attrs (v : DataArray) (a : gmap string string) : DataArray :=
  mkDataArray (dims v) (shape v) (data v) a.

(** A dataset: its variables (data variables and coordinates) by name. *)
Abbreviation Dataset := (gmap string DataArray).

(** [ds[name]] *)
Definition getitem (ds : Dataset) (name : string) : result DataArray :=
  from_option (KeyError name) (ds !! name).

(** [ds.dims]: the dimension names used by some variable. *)
Definition has_dim (ds : Dataset) (d : string) : bool :=
  bool_decide (map_Exists (fun _ v => d ∈ dims v) ds).

(** *** rename *)

Definition rename_dim (k v d : string) : string :=
  if decide (d = k) then v else d.

Definition rename_dims (k v : string) (x : DataArray) : DataArray :=
  mkDataArray (rename_dim k v <$> dims x) (shape x) (data x) (attrs x).

(** [ds.rename({k: v}, inplace=True)] *)
Definition rename (k v : string) (ds : Dataset) : result Dataset :=
  if bool_decide (ds !! k = None) && negb (has_dim ds k) then
    Raise (ValueError "cannot rename: not a variable or dimension")
  else if bool_decide (is_Some (ds !! v)) && bool_decide (k ≠ v) then
    Raise (ValueError "the new name already exists")
  else
    let ds' := rename_dims k v <$> ds in
    Ok match ds' !! k with
       | Some x => <[v := x]> (delete k ds')
       | None => ds'
       end.

(** *** merge *)

Definition NaT : Z := - 2 ^ 63.

(** [array_notnull_equiv]: equal, or missing on one side. *)
Definition notnull_equiv (a b : float) : bool :=
  F64.eq a b || F64.is_nan a || F64.is_nan b.

Definition notnull_equiv_time (a b : Z) : bool :=
  bool_decide (a = b) || bool_decide (a = NaT) || bool_decide (b = NaT).

Definition no_conflicts (a b : DataArray) : bool :=
  bool_decide (dims a = dims b) && bool_decide (shape a = shape b) &&
  match data a, data b with
  | Floats xs, Floats ys => forallb id (zip_with notnull_equiv xs ys)
  | Floats32 xs, Floats32 ys => forallb id (zip_with notnull_equiv xs ys)
  | Ints xs, Ints ys => forallb id (zip_with Z.eqb xs ys)
  | Datetimes xs, Datetimes ys => forallb id (zip_with notnull_equiv_time xs ys)
  | _, _ => false
  end.

Definition fillna (a b : DataArray) : DataArray :=
  match data a, data b with
  | Floats xs, Floats ys =>
      set_data a (Floats (zip_with (fun x y => if F64.is_nan x then y else x) xs ys))
  | Floats32 xs, Floats32 ys =>
      set_data a (Floats32 (zip_with (fun x y => if F64.is_nan x then y else x) xs ys))
  | Datetimes xs, Datetimes ys =>
      set_data a (Datetimes (zip_with (fun x y => if bool_decide (x = NaT) then y else x) xs ys))
  | _, _ => a
  end.

(** The variables called [name], in the order of the merged objects. *)
Definition candidates (name : string) (dlist : list Dataset) : list DataArray :=
  omap (fun ds : Dataset => ds !! name) dlist.

(** The loop of [unique_variable] with [compat='no_conflicts']: each
    later variable of that name must agree with what has been put
    together so far; the gaps are then filled from it and its attributes
    are taken. *)
Fixpoint combine (out : DataArray) (rest : list DataArray) : option DataArray :=
  match rest with
  | [] => Some out
  | var :: rest =>
      if no_conflicts out var
      then combine (set_attrs (fillna out var) (attrs var)) rest
      else None
  end.

Definition unique_variable (vs : list DataArray) : option DataArray :=
  match vs with
  | [] => None
  | out :: rest => combine out rest
  end.

Definition resolve (dlist : list Dataset) : gmap string (option DataArray) :=
  map_imap (fun name _ => Some (unique_variable (candidates name dlist)))
           (union_list dlist).

(** [xr.merge(dlist)].  The datasets are taken on one common set of
    coordinate labels, so that no re-indexing takes place; variables of
    the same name are combined by [unique_variable]. *)
Definition merge (dlist : list Dataset) : result Dataset :=
  let r := resolve dlist in
  if bool_decide (map_Forall (fun _ o => is_Some o) r) then Ok (omap id r)
  else Raise MergeError.

(** *** transpose *)

Definition index_of (d : string) (l : list string) : option nat :=
  fst <$> list_find (fun x => x = d) l.

Definition product (l : list nat) : nat := foldr Nat.mul 1%nat l.

(** C-order strides, in cells. *)
Fixpoint strides (shp : list nat) : list nat :=
  match shp with
  | [] => []
  | _ :: rest => product rest :: strides rest
  end.

Definition unravel (shp : list nat) (k : nat) : list nat :=
  zip_with (fun st n => ((k / st) mod n)%nat) (strides shp) shp.

Definition offset (idx sts : list nat) : nat :=
  foldr Nat.add 0%nat (zip_with Nat.mul idx sts).

(** [np.transpose(a, axes)], on the flattened cells. *)
Definition transpose_flat {A} (shp axes : list nat) (xs : list A) : list A :=
  let new_shape := omap (fun ax => shp !! ax) axes in
  let sts := omap (fun ax => strides shp !! ax) axes in
  omap (fun k => xs !! offset (unravel new_shape k) sts)
       (seq 0 (product new_shape)).

(** [var.transpose] to the dimension order [var_dims] *)
Definition transpose_var (var_dims : list string) (v : DataArray) : DataArray :=
  let axes := omap (fun d => index_of d (dims v)) var_dims in
  mkDataArray var_dims
    (omap (fun ax => shape v !! ax) axes)
    match data v with
    | Floats xs => Floats (transpose_flat (shape v) axes xs)
    | Floats32 xs => Floats32 (transpose_flat (shape v) axes xs)
    | Ints xs => Ints (transpose_flat (shape v) axes xs)
    | Datetimes xs => Datetimes (transpose_flat (shape v) axes xs)
    end
    (attrs v).

(** [ds.transpose] to [new_dims]: the arguments must be exactly the
    dimensions of the dataset; each variable is transposed to the
    arguments it has, in their order. *)
Definition transpose (new_dims : list string) (ds : Dataset) : result Dataset :=
  if bool_decide (Forall (fun d => has_dim ds d = true) new_dims) &&
     bool_decide (map_Forall (fun _ v => Forall (fun d => d ∈ new_dims) (dims v)) ds)
  then
    Ok ((fun v => transpose_var (filter (fun d => d ∈ dims v) new_dims) v) <$> ds)
  else Raise (ValueError "arguments to transpose must be permuted dataset dimensions").

(** *** isel *)

(** Of a list with one entry per axis (the shape, the strides), the entry
    of the axis called [d]; 0 where no axis is called so. *)
Definition entry (dims : list string) (l : list nat) (d : string) : nat :=
  default 0%nat (index_of d dims ≫= fun i => l !! i).

(** [v.isel({d: pos d, ...})] over all the dimensions of [v]: the cell at
    position [pos d] along each dimension [d], whatever the order of the
    axes; a position beyond the size of a dimension selects nothing. *)
Definition isel (v : DataArray) (pos : string -> nat) : option nddata :=
  let idx := pos <$> dims v in
  if bool_decide (Forall2 (fun i n => (i < n)%nat) idx (shape v))
  then item (data v) (offset idx (strides (shape v)))
  else None.

End xr.

(** ** cf_units: temperature units and their conversions

    udunits describes a temperature unit by an affine map to kelvin:
    [x] in the unit is [slope * x + origin] kelvin; converting between
    two different units applies one arithmetic map [a * x + b] to every
    cell, each operation rounded to binary64.  From kelvin to degrees
    Celsius the map is [1 * x + (-273.15)].  Two spellings of one unit
    are one unit. *)

Module cf_units.

Record Unit : Type := mkUnit { slope : float; origin : float }.

#[global] Instance Unit_eq_dec : EqDecision Unit.
Proof. solve_decision. Defined.

Definition kelvin : Unit := mkUnit (F64.of_Z 1) (F64.of_Z 0).
Definition celsius : Unit := mkUnit (F64.of_Z 1) (F64.of_ratio 27315 100).
Definition rankine : Unit := mkUnit (F64.of_ratio 5 9) (F64.of_Z 0).
Definition fahrenheit : Unit :=
  mkUnit (F64.of_ratio 5 9) (F64.mul (F64.of_ratio 45967 100) (F64.of_ratio 5 9)).

Definition names : list (string * Unit) :=
  [("K", kelvin); ("kelvin", kelvin); ("degK", kelvin);
   ("degC", celsius); ("celsius", celsius); ("degree_Celsius", celsius);
   ("degR", rankine); ("rankine", rankine);
   ("degF", fahrenheit); ("fahrenheit", fahrenheit)]%string.

Fixpoint assoc {A} (k : string) (l : list (string * A)) : option A :=
  match l with
  | [] => None
  | (k', a) :: l' => if decide (k' = k) then Some a else assoc k l'
  end.

(** [cf_units.Unit(s)]; a string that is no unit raises. *)
Definition parse (s : string) : result Unit :=
  from_option (ValueError "failed to parse unit") (assoc s names).

(** The converter of one cell from [u_in] to [u_out]. *)
Definition convert1 (u_in u_out : Unit) (x : float) : float :=
  F64.add (F64.mul (F64.div (slope u_in) (slope u_out)) x)
          (F64.div (F64.sub (origin u_in) (origin u_out)) (slope u_out)).

(** [u_in.convert(values, u_out, inplace=True)], by what it leaves in
    [values].  Equal units: the array is handed back untouched.  A float
    array is converted in place, each cell in double precision and
    stored in the dtype of the array.  An integer array is first cast to
    float64, which makes a copy: the copy is converted and [values]
    stays as it is.  Any other dtype is refused. *)
Definition convert (u_in : Unit) (values : xr.nddata) (u_out : Unit)
  : result xr.nddata :=
  if decide (u_in = u_out) then Ok values
  else
    match values with
    | xr.Floats xs => Ok (xr.Floats (map (convert1 u_in u_out) xs))
    | xr.Floats32 xs =>
        Ok (xr.Floats32 (map (fun x => F32.round (convert1 u_in u_out x)) xs))
    | xr.Ints xs => Ok (xr.Ints xs)
    | xr.Datetimes _ => Raise TypeError
    end.

End cf_units.

(** ** datetime and pandas.Timestamp: the proleptic Gregorian calendar

    Dates are converted to and from day ordinals the way CPython's
    datetime does it; adding a [timedelta] is adding to the ordinal. *)

Module datetime.

Record date : Type := mkDate { year : Z; month : Z; day : Z }.

Definition is_leap (y : Z) : bool :=
  (y mod 4 =? 0) && (negb (y mod 100 =? 0) || (y mod 400 =? 0)).

Definition days_in_month (y m : Z) : Z :=
  if (m =? 2) then (if is_leap y then 29 else 28)
  else if (m =? 4) || (m =? 6) || (m =? 9) || (m =? 11) then 30
  else 31.

(** Days before the first of month [m] in a common year. *)
Definition DAYS_BEFORE_MONTH (m : Z) : Z :=
  match m with
  | 1 => 0 | 2 => 31 | 3 => 59 | 4 => 90 | 5 => 120 | 6 => 151
  | 7 => 181 | 8 => 212 | 9 => 243 | 10 => 273 | 11 => 304 | 12 => 334
  | _ => 365
  end.

Definition days_before_year (y : Z) : Z :=
  let y := y - 1 in y * 365 + y / 4 - y / 100 + y / 400.

Definition days_before_month (y m : Z) : Z :=
  DAYS_BEFORE_MONTH m + (if (2 <? m) && is_leap y then 1 else 0).

(** Ordinal of a date: 0001-01-01 is day 1. *)
Definition ymd2ord (d : date) : Z :=
  days_before_year (year d) + days_before_month (year d) (month d) + day d.

Definition DI400Y : Z := 146097.
Definition DI100Y : Z := 36524.
Definition DI4Y : Z := 1461.
Definition MAXORDINAL : Z := 3652059.

(** Month and day of the [n]-th day (from 0) of a year. *)
Definition month_day (y : Z) (leapyear : bool) (n : Z) : date :=
  let m := Z.shiftr (n + 50) 5 in
  let preceding := DAYS_BEFORE_MONTH m + (if (2 <? m) && leapyear then 1 else 0) in
  if n <? preceding then
    let m := m - 1 in
    let preceding :=
      preceding -
      ((if m =? 2 then 28 else if (m =? 4) || (m =? 6) || (m =? 9) || (m =? 11) then 30 else 31)
       + (if (m =? 2) && leapyear then 1 else 0)) in
    mkDate y m (n - preceding + 1)
  else mkDate y m (n - preceding + 1).

Definition ord2ymd (n : Z) : date :=
  let n := n - 1 in
  let n400 := n / DI400Y in
  let n := n mod DI400Y in
  let y := n400 * 400 + 1 in
  let n100 := n / DI100Y in
  let n := n mod DI100Y in
  let n4 := n / DI4Y in
  let n := n mod DI4Y in
  let n1 := n / 365 in
  let n := n mod 365 in
  let y := y + n100 * 100 + n4 * 4 + n1 in
  if (n1 =? 4) || (n100 =? 4) then mkDate (y - 1) 12 31
  else
    let leapyear := (n1 =? 3) && (negb (n4 =? 24) || (n100 =? 3)) in
    month_day y leapyear n.

(** [d + timedelta(days=n)] *)
Definition add_days (d : date) (n : Z) : result date :=
  let o := ymd2ord d + n in
  if (0 <? o) && (o <=? MAXORDINAL) then Ok (ord2ymd o) else Raise OverflowError.

(** The dates of the calendar, from year 1 on. *)
Definition valid (d : date) : Prop :=
  1 <= year d /\ 1 <= month d <= 12 /\ 1 <= day d <= days_in_month (year d) (month d).

(** The day after [d], by the rules of the calendar. *)
Definition next_day (d : date) : date :=
  if day d <? days_in_month (year d) (month d) then mkDate (year d) (month d) (day d + 1)
  else if month d <? 12 then mkDate (year d) (month d + 1) 1
  else mkDate (year d + 1) 1 1.

(** *** Parsing and printing with the format ['%Y-%m-%d'] *)

(** [\d]: a character is a code point below 256, and the decimal
    digits among these are 0 to 9. *)
Definition digit_val (c : ascii) : option Z :=
  let n := Z.of_nat (nat_of_ascii c) in
  if (48 <=? n) && (n <=? 57) then Some (n - 48) else None.

Definition is_char (c : ascii) (lo hi : Z) : bool :=
  let n := Z.of_nat (nat_of_ascii c) in (48 + lo <=? n) && (n <=? 48 + hi).

(** [%Y]: exactly four digits. *)
Definition parse_Y (s : string) : option (Z * string) :=
  match s with
  | String a (String b (String c (String d rest))) =>
      match digit_val a, digit_val b, digit_val c, digit_val d with
      | Some a, Some b, Some c, Some d =>
          Some (a * 1000 + b * 100 + c * 10 + d, rest)
      | _, _, _, _ => None
      end
  | _ => None
  end.

Definition dash : ascii := "-"%char.
Definition space : ascii := " "%char.

(** [%m] followed by the literal dash: [1[0-2]], [0[1-9]] or [[1-9]],
    tried in this order. *)
Definition parse_m_dash (s : string) : option (Z * string) :=
  match s with
  | String a (String b (String c rest)) =>
      if is_char a 1 1 && is_char b 0 2 && bool_decide (c = dash) then
        Some (10 + (Z.of_nat (nat_of_ascii b) - 48), rest)
      else if is_char a 0 0 && is_char b 1 9 && bool_decide (c = dash) then
        Some (Z.of_nat (nat_of_ascii b) - 48, rest)
      else if is_char a 1 9 && bool_decide (b = dash) then
        Some (Z.of_nat (nat_of_ascii a) - 48, String c rest)
      else None
  | String a (String b rest) =>
      if is_char a 1 9 && bool_decide (b = dash) then
        Some (Z.of_nat (nat_of_ascii a) - 48, rest)
      else None
  | _ => None
  end.

(** [%d]: [3[01]], [[12]\d], [0[1-9]], [[1-9]] or a space and [[1-9]],
    tried in this order; the first that matches is taken. *)
Definition parse_d (s : string) : option (Z * string) :=
  match s with
  | String a (String b rest) =>
      let va := Z.of_nat (nat_of_ascii a) - 48 in
      let vb := Z.of_nat (nat_of_ascii b) - 48 in
      if is_char a 3 3 && is_char b 0 1 then Some (30 + vb, rest)
      else if is_char a 1 2 && is_char b 0 9 then Some (va * 10 + vb, rest)
      else if is_char a 0 0 && is_char b 1 9 then Some (vb, rest)
      else if is_char a 1 9 then Some (va, String b rest)
      else if bool_decide (a = space) && is_char b 1 9 then Some (vb, rest)
      else None
  | String a EmptyString =>
      if is_char a 1 9 then Some (Z.of_nat (nat_of_ascii a) - 48, EmptyString)
      else None
  | EmptyString => None
  end.

(** [datetime.strptime(s, '%Y-%m-%d')]: the whole string has to be
    consumed and the fields have to form a date. *)
Definition strptime (s : string) : result date :=
  match parse_Y s with
  | Some (y, String c rest) =>
      if bool_decide (c = dash) then
        match parse_m_dash rest with
        | Some (m, rest) =>
            match parse_d rest with
            | Some (d, EmptyString) =>
                if (1 <=? y) && (d <=? days_in_month y m) then Ok (mkDate y m d)
                else Raise (ValueError "day is out of range for month")
            | Some (_, String _ _) => Raise (ValueError "unconverted data remains")
            | None => Raise (ValueError "time data does not match format")
            end
        | None => Raise (ValueError "time data does not match format")
        end
      else Raise (ValueError "time data does not match format")
  | _ => Raise (ValueError "time data does not match format")
  end.

Definition digit_char (n : Z) : ascii := ascii_of_nat (Z.to_nat (48 + n mod 10)).

Definition two_digits (n : Z) : string :=
  String (digit_char (n / 10)) (String (digit_char n) EmptyString).

Definition four_digits (n : Z) : string :=
  String (digit_char (n / 1000)) (String (digit_char (n / 100)) (two_digits n)).

(** [%Y] as the C library prints it: the year in decimal, without
    padding (the years of a date are 1 to 9999). *)
Definition year_digits (n : Z) : string :=
  if n <? 10 then String (digit_char n) EmptyString
  else if n <? 100 then two_digits n
  else if n <? 1000 then String (digit_char (n / 100)) (two_digits n)
  else four_digits n.

(** [d.strftime('%Y-%m-%d')]: CPython hands the format to the
    [strftime] of the platform; [%m] and [%d] are padded to two digits,
    [%Y] is not padded. *)
Definition strftime (d : date) : string :=
  year_digits (year d) +:+ String dash (two_digits (month d))
    +:+ String dash (two_digits (day d)).

End datetime.

(** pandas.Timestamp: nanoseconds since 1970-01-01 in an int64, or NaT. *)

Module pd.

Inductive Timestamp : Type :=
| NaT
| TS (ns : Z).

Definition ns_per_day : Z := 86400 * 10 ^ 9.
Definition int64_max : Z := 2 ^ 63 - 1.
Definition epoch_ordinal : Z := 719163.

(** [pd.to_datetime(x)] for a [datetime64[ns]] or an integer scalar:
    nanoseconds since 1970-01-01. *)
Definition to_datetime (x : Z) : Timestamp :=
  if bool_decide (x = xr.NaT) then NaT else TS x.

(** [ts + timedelta(days=n)] *)
Definition add_days (ts : Timestamp) (n : Z) : result Timestamp :=
  match ts with
  | NaT => Ok NaT
  | TS ns =>
      let r := ns + n * ns_per_day in
      if (xr.NaT <? r) && (r <=? int64_max) then Ok (TS r) else Raise OverflowError
  end.

(** The calendar day a timestamp falls on. *)
Definition date_of (ns : Z) : datetime.date :=
  datetime.ord2ymd (epoch_ordinal + ns / ns_per_day).

(** [ts.strftime('%Y-%m-%d')] *)
Definition strftime (ts : Timestamp) : result string :=
  match ts with
  | NaT => Raise (ValueError "NaTType does not support strftime")
  | TS ns => Ok (datetime.strftime (date_of ns))
  end.

End pd.

(** ** The world outside the process: the THREDDS server and the files *)

Inductive pyval : Type :=
| PyStr (s : string)
| PyInt (n : Z).

Inductive File : Type :=
| NetCDF (ds : xr.Dataset)
| ConfigFile (template : string) (kwargs : list (string * pyval))
| Blob.

Record World : Type := mkWorld {
  remote : gmap string xr.Dataset;
  fs : gmap string File
}.

Definition set_fs (w : World) (f : gmap string File) : World :=
  mkWorld (remote w) f.

(** A computation reads and changes the world and returns or raises; the
    world an exception leaves behind is kept. *)
Definition IO (A : Type) : Type := World -> result A * World.

#[global] Instance IO_ret : MRet IO := fun A a w => (Ok a, w).
#[global] Instance IO_bind : MBind IO :=
  fun A B f m w =>
    match m w with
    | (Ok a, w') => f a w'
    | (Raise e, w') => (Raise e, w')
    end.

Definition lift {A} (r : result A) : IO A := fun w => (r, w).

(** The configuration read by [read_config]: the keys [main] uses. *)
Record Config : Type := mkConfig {
  Met_Loc : string;
  old_Config : string;
  new_Config : string;
  GridFile : string;
  TempDir : string;
  Start_Date : string;
  End_Date : string;
  vic_save_state : string
}.

(** The CDO engine, an external program: what [remapcon] does to the
    files, given the grid file, the input and the output path. *)
Record Cdo : Type := mkCdo {
  remapcon : string -> string -> string -> gmap string File -> result () * gmap string File
}.

(** ** The tables of [main] (lines 50-61) *)

Definition varnames : list (string * string) :=
  [("vs", "wind_speed"); ("tmmx", "air_temperature");
   ("tmmn", "air_temperature");
   ("srad", "surface_downwelling_shortwave_flux_in_air");
   ("sph", "specific_humidity"); ("pr", "precipitation_amount");
   ("pet", "potential_evapotranspiration")]%string.

Definition modelnames : list string := ["CFSv2"]%string.

Definition new_units : list (string * string) :=
  [("vs", "m s-1"); ("sph", "kg kg-1"); ("tmmx", "degC"); ("tmmn", "degC");
   ("srad", "W m-2"); ("pr", "mm"); ("pet", "mm")]%string.

(** ** Fetch (lines 66-76) *)

Definition url (var : string) : string :=
  "http://thredds.northwestknowledge.net:8080/thredds/dodsC/" +:+
  "NWCSC_INTEGRATED_SCENARIOS_ALL_CLIMATE/" +:+
  "cfsv2_metdata_90day/" +:+
  "cfsv2_metdata_forecast_" +:+ var +:+ "_daily.nc".

(** [xr.open_dataset(url)] *)
Definition open_dataset (u : string) : IO xr.Dataset :=
  fun w => (from_option (OSError u) (remote w !! u), w).

(** One pass of the loop over [varnames.items()]. *)
Definition fetch_one (var name : string) : IO xr.Dataset :=
  xds ← open_dataset (url var);
  if decide (name = "air_temperature"%string)
  then lift (xr.rename "air_temperature" var xds)
  else mret xds.

Fixpoint fetch (items : list (string * string)) : IO (list xr.Dataset) :=
  match items with
  | [] => mret []
  | (var, name) :: rest =>
      xds ← fetch_one var name;
      dlist ← fetch rest;
      mret (xds :: dlist)
  end.

(** ** Unit and fill-value normalisation (lines 80-87) *)

(** Line 81: the unit recorded with the variable. *)
Definition units_in (merge_ds : xr.Dataset) (var : string) : result cf_units.Unit :=
  v ← xr.getitem merge_ds var;
  u ← from_option (KeyError "units") (xr.attrs v !! "units"%string);
  cf_units.parse u.

(** Line 82: the unit [new_units] gives the variable. *)
Definition units_out (var : string) : result cf_units.Unit :=
  nu ← from_option (KeyError var) (cf_units.assoc var new_units);
  cf_units.parse nu.

(** Line 86: [values[values < -30000] = -32767.] on float cells. *)
Definition fix_fill (values : list float) : list float :=
  np.setitem_mask_scalar values (np.less_scalar values threshold) fill_value.

(** The same on integer cells: the comparison is that of the integers,
    and [-32767.] is stored as the integer -32767. *)
Definition fix_fill_int (values : list Z) : list Z :=
  np.setitem_mask_scalar values (map (fun x => x <? -30000) values) (-32767).

(** Line 86 on an array, by its dtype; a [datetime64] array is not
    compared with a number. *)
Definition fix_fill_values (values : xr.nddata) : result xr.nddata :=
  match values with
  | xr.Floats xs => Ok (xr.Floats (fix_fill xs))
  | xr.Floats32 xs => Ok (xr.Floats32 (fix_fill xs))
  | xr.Ints xs => Ok (xr.Ints (fix_fill_int xs))
  | xr.Datetimes _ => Raise TypeError
  end.

(** One pass of the loop of line 80.  [merge_ds[var].values] is the array
    the dataset holds, so the in-place conversion of line 84 and the
    assignment of line 86 change the dataset; line 87 sets the unit. *)
Definition normalize_var (merge_ds : xr.Dataset) (var : string)
  : result xr.Dataset :=
  uin ← units_in merge_ds var;
  uout ← units_out var;
  v ← xr.getitem merge_ds var;
  values ← cf_units.convert uin (xr.data v) uout;
  values ← fix_fill_values values;
  nu ← from_option (KeyError var) (cf_units.assoc var new_units);
  Ok (<[var := xr.set_attr (xr.set_data v values) "units" nu]> merge_ds).

Fixpoint for_vars (f : xr.Dataset -> string -> result xr.Dataset)
  (vars : list string) (ds : xr.Dataset) : result xr.Dataset :=
  match vars with
  | [] => Ok ds
  | var :: rest => ds' ← f ds var; for_vars f rest ds'
  end.

Definition normalize (merge_ds : xr.Dataset) : result xr.Dataset :=
  for_vars normalize_var ["tmmn"; "tmmx"]%string merge_ds.

(** ** tmax >= tmin (lines 90-95) *)

(** The operations of lines 93-95 on arrays, by dtype.  The two
    temperature grids are taken in one dtype, as one product of the
    server has them: cells are then compared and copied as they are. *)

(** [a > b] *)
Definition greater (a b : xr.nddata) : result (list bool) :=
  match a, b with
  | xr.Floats xs, xr.Floats ys => Ok (np.greater xs ys)
  | xr.Floats32 xs, xr.Floats32 ys => Ok (np.greater xs ys)
  | xr.Ints xs, xr.Ints ys => Ok (zip_with Z.gtb xs ys)
  | _, _ => Raise TypeError
  end.

(** [a != -32767.]; integer cells are compared as float64. *)
Definition not_equal_fill (a : xr.nddata) : result (list bool) :=
  match a with
  | xr.Floats xs => Ok (np.not_equal_scalar xs fill_value)
  | xr.Floats32 xs => Ok (np.not_equal_scalar xs fill_value)
  | xr.Ints xs => Ok (map (fun n => F64.ne (F64.of_Z n) fill_value) xs)
  | xr.Datetimes _ => Raise TypeError
  end.

(** [a[mask]] *)
Definition getitem_mask (a : xr.nddata) (mask : list bool) : xr.nddata :=
  match a with
  | xr.Floats xs => xr.Floats (np.getitem_mask xs mask)
  | xr.Floats32 xs => xr.Floats32 (np.getitem_mask xs mask)
  | xr.Ints xs => xr.Ints (np.getitem_mask xs mask)
  | xr.Datetimes xs => xr.Datetimes (np.getitem_mask xs mask)
  end.

(** [a[mask] = rhs] *)
Definition setitem_mask (a : xr.nddata) (mask : list bool) (rhs : xr.nddata)
  : result xr.nddata :=
  match a, rhs with
  | xr.Floats xs, xr.Floats ys => Ok (xr.Floats (np.setitem_mask xs mask ys))
  | xr.Floats32 xs, xr.Floats32 ys => Ok (xr.Floats32 (np.setitem_mask xs mask ys))
  | xr.Ints xs, xr.Ints ys => Ok (xr.Ints (np.setitem_mask xs mask ys))
  | xr.Datetimes xs, xr.Datetimes ys => Ok (xr.Datetimes (np.setitem_mask xs mask ys))
  | _, _ => Raise TypeError
  end.

(** [ds[var].values[mask] = rhs] *)
Definition setitem_values (ds : xr.Dataset) (var : string)
  (mask : list bool) (rhs : xr.nddata) : result xr.Dataset :=
  v ← xr.getitem ds var;
  values ← setitem_mask (xr.data v) mask rhs;
  Ok (<[var := xr.set_data v values]> ds).

(** [tmin] and [tmax] are copies ([np.copy], lines 91-92) taken before
    anything is written: line 95 stores the old minima.  The mask and the
    masked assignments need the two arrays in one shape; with different
    shapes line 93 or line 94 raises. *)
Definition enforce (merge_ds : xr.Dataset) : result xr.Dataset :=
  vmin ← xr.getitem merge_ds "tmmn";
  let tmin := xr.data vmin in
  vmax ← xr.getitem merge_ds "tmmx";
  let tmax := xr.data vmax in
  if bool_decide (xr.shape vmin = xr.shape vmax) then
    gt ← greater tmin tmax;
    ne ← not_equal_fill tmax;
    let swap_values := np.logical_and gt ne in
    merge_ds ← setitem_values merge_ds "tmmn" swap_values
                 (getitem_mask tmax swap_values);
    setitem_values merge_ds "tmmx" swap_values (getitem_mask tmin swap_values)
  else Raise (ValueError "operands could not be broadcast together").

(** ** Forecast window (lines 96-114) *)

(** [merge_ds['time'].values[-1]] on a time axis of [datetime64[ns]] or
    of integers; a time axis of floats is not followed here. *)
Definition last_time (merge_ds : xr.Dataset) : result Z :=
  v ← xr.getitem merge_ds "time";
  match xr.data v with
  | xr.Datetimes xs => from_option IndexError (last xs)
  | xr.Ints xs => from_option IndexError (last xs)
  | xr.Floats _ => Raise TypeError
  | xr.Floats32 _ => Raise TypeError
  end.

Definition forecast_window (config_dict : Config) (merge_ds : xr.Dataset)
  : result (list (string * pyval)) :=
  t ← last_time merge_ds;
  let end_date := pd.to_datetime t in
  d ← datetime.strptime (End_Date config_dict);
  start_date ← datetime.add_days d 1;
  let start_date_format := datetime.strftime start_date in
  end_date_format ← pd.strftime end_date;
  save_state ← pd.add_days end_date 1;
  vic_save_state_format ← pd.strftime save_state;
  Ok [("START_DATE", PyStr (Start_Date config_dict));
      ("END_DATE", PyStr (End_Date config_dict));
      ("VIC_SAVE_STATE", PyStr (vic_save_state config_dict));
      ("MED_START_DATE", PyStr start_date_format);
      ("MED_END_DATE", PyStr end_date_format);
      ("MED_VIC_SAVE_STATE", PyStr vic_save_state_format);
      ("SEAS_START_DATE", PyInt (-9999));
      ("SEAS_END_DATE", PyInt (-9999));
      ("SEAS_VIC_SAVE_STATE", PyInt (-9999))]%string.

(** Modelled from the spec: [model_tools.replace_var_pythonic_config] is
    not among the sources.  It is the text-substitution collaborator that
    rewrites the companion configuration file from a template; here it
    leaves, at the new path, the template's name and the substitutions it
    was handed. *)
Definition replace_var_pythonic_config (old_config_file new_config_file : string)
  (kwargs : list (string * pyval)) : IO () :=
  fun w => (Ok (), set_fs w (<[new_config_file := ConfigFile old_config_file kwargs]> (fs w))).

(** ** Staging and regridding (lines 119-127) *)

Definition starts_with_slash (s : string) : bool :=
  match s with
  | String c _ => bool_decide (c = "/"%char)
  | EmptyString => false
  end.

Fixpoint ends_with_slash (s : string) : bool :=
  match s with
  | EmptyString => false
  | String c EmptyString => bool_decide (c = "/"%char)
  | String _ s' => ends_with_slash s'
  end.

(** [os.path.join(a, b)] *)
Definition path_join (a b : string) : string :=
  if starts_with_slash b then b
  else if bool_decide (a = EmptyString) || ends_with_slash a then a +:+ b
  else a +:+ "/" +:+ b.

(** [ds.to_netcdf(path)] *)
Definition to_netcdf (ds : xr.Dataset) (path : string) : IO () :=
  fun w => (Ok (), set_fs w (<[path := NetCDF ds]> (fs w))).

(** [cdo.remapcon(grid_file, input=..., output=...)] *)
Definition cdo_remapcon (cdo : Cdo) (grid_file input output : string) : IO () :=
  fun w => let '(r, f) := remapcon cdo grid_file input output (fs w) in (r, set_fs w f).

(** [os.remove(path)] *)
Definition os_remove (path : string) : IO () :=
  fun w =>
    match fs w !! path with
    | Some _ => (Ok (), set_fs w (delete path (fs w)))
    | None => (Raise (FileNotFoundError path), w)
    end.

(** The staging file of lines 123-124 and the output file of line 119. *)
Definition temporary_path (config_dict : Config) (model : string) : string :=
  path_join (TempDir config_dict) ("med_temp_" +:+ model).

Definition outfile_path (config_dict : Config) (model : string) : string :=
  path_join (Met_Loc config_dict) (model +:+ ".nc").

(** Lines 125-127: three calls in a row, nothing catches an exception. *)
Definition regrid (cdo : Cdo) (config_dict : Config) (model : string)
  (merge_ds : xr.Dataset) : IO () :=
  let outfile := outfile_path config_dict model in
  let temporary := temporary_path config_dict model in
  _ ← to_netcdf merge_ds temporary;
  _ ← cdo_remapcon cdo (GridFile config_dict) temporary outfile;
  os_remove temporary.

(** ** The pipeline of one model, and [main] (lines 64-127) *)

(** Lines 77-95: merge, rename, normalise, transpose, enforce. *)
Definition harmonize (dlist : list xr.Dataset) : result xr.Dataset :=
  merge_ds ← xr.merge dlist;
  merge_ds ← xr.rename "day" "time" merge_ds;
  merge_ds ← normalize merge_ds;
  merge_ds ← xr.transpose ["time"; "lat"; "lon"]%string merge_ds;
  enforce merge_ds.

Definition per_model (cdo : Cdo) (config_dict : Config) (model : string) : IO () :=
  dlist ← fetch varnames;
  merge_ds ← lift (harmonize dlist);
  kwargs ← lift (forecast_window config_dict merge_ds);
  _ ← replace_var_pythonic_config (old_Config config_dict) (new_Config config_dict) kwargs;
  regrid cdo config_dict model merge_ds.

Fixpoint for_models (body : string -> IO ()) (models : list string) : IO () :=
  match models with
  | [] => mret ()
  | model :: rest => _ ← body model; for_models body rest
  end.

Definition main (cdo : Cdo) (config_dict : Config) : IO () :=
  for_models (per_model cdo config_dict) modelnames.

(** ** Vocabulary of the statements *)

(** The value of variable [var] at flat position [i], for a variable of
    dtype float64. *)
Definition cell (ds : xr.Dataset) (var : string) (i : nat) : option float :=
  match ds !! var with
  | Some v => match xr.data v with
              | xr.Floats xs => xs !! i
              | _ => None
              end
  | None => None
  end.

(** The same for a variable of dtype float32, and for one of integers. *)
Definition cell32 (ds : xr.Dataset) (var : string) (i : nat) : option float :=
  match ds !! var with
  | Some v => match xr.data v with
              | xr.Floats32 xs => xs !! i
              | _ => None
              end
  | None => None
  end.

Definition cell_int (ds : xr.Dataset) (var : string) (i : nat) : option Z :=
  match ds !! var with
  | Some v => match xr.data v with
              | xr.Ints xs => xs !! i
              | _ => None
              end
  | None => None
  end.

(** The [units] attribute of variable [var]. *)
Definition unit_attr (ds : xr.Dataset) (var : string) : option string :=
  match ds !! var with
  | Some v => xr.attrs v !! "units"%string
  | None => None
  end.

(** The variables the normalisation loop of line 80 runs over. *)
Definition designated (var : string) : Prop :=
  var = "tmmn"%string \/ var = "tmmx"%string.

(** The files at the moment the engine is started: the staged dataset
    has been written. *)
Definition staged (config_dict : Config) (model : string) (merge_ds : xr.Dataset)
  (w : World) : gmap string File :=
  <[temporary_path config_dict model := NetCDF merge_ds]> (fs w).





(** The dimension order of line 89. *)
Definition canonical_dims : list string := ["time"; "lat"; "lon"]%string.

(** The normalisation and the consistency step write only the cells and
    the unit of "tmmn" and "tmmx". *)
Definition same_layout (ds ds' : xr.Dataset) : Prop :=
  (forall n, xr.dims <$> ds' !! n = xr.dims <$> ds !! n) /\
  (forall n, n ≠ "tmmn"%string -> n ≠ "tmmx"%string -> ds' !! n = ds !! n).

(** The two grids after lines 93-95, as lists: cells compared by [gt],
    the mask taken where [keep] holds of the maximum. *)
Definition exchanged {A} (gt : A -> A -> bool) (keep : A -> bool)
  (tmin tmax : list A) : list A * list A :=
  let swap_values := np.logical_and (zip_with gt tmin tmax) (map keep tmax) in
  (np.setitem_mask tmin swap_values (np.getitem_mask tmax swap_values),
   np.setitem_mask tmax swap_values (np.getitem_mask tmin swap_values)).

(** On float cells. *)
Definition swapped (tmin tmax : list float) : list float * list float :=
  let swap_values :=
    np.logical_and (np.greater tmin tmax) (np.not_equal_scalar tmax fill_value) in
  (np.setitem_mask tmin swap_values (np.getitem_mask tmax swap_values),
   np.setitem_mask tmax swap_values (np.getitem_mask tmin swap_values)).

(** On integer cells. *)
Definition swapped_int (tmin tmax : list Z) : list Z * list Z :=
  exchanged Z.gtb (fun n => F64.ne (F64.of_Z n) fill_value) tmin tmax.

(** On arrays of one numeric dtype. *)
Definition swapped_values (tmin tmax : xr.nddata) : option (xr.nddata * xr.nddata) :=
  match tmin, tmax with
  | xr.Floats a, xr.Floats b =>
      Some (xr.Floats (swapped a b).1, xr.Floats (swapped a b).2)
  | xr.Floats32 a, xr.Floats32 b =>
      Some (xr.Floats32 (swapped a b).1, xr.Floats32 (swapped a b).2)
  | xr.Ints a, xr.Ints b =>
      Some (xr.Ints (swapped_int a b).1, xr.Ints (swapped_int a b).2)
  | _, _ => None
  end.

(** One float64 cell after line 84: untouched when the recorded unit is
    the target unit, converted otherwise; and one float32 cell. *)
Definition converted (uin : cf_units.Unit) (x : float) : float :=
  if decide (uin = cf_units.celsius) then x
  else cf_units.convert1 uin cf_units.celsius x.

Definition converted32 (uin : cf_units.Unit) (x : float) : float :=
  if decide (uin = cf_units.celsius) then x
  else F32.round (cf_units.convert1 uin cf_units.celsius x).

(** One float cell after line 86, and one integer cell. *)
Definition repaired (c : float) : float :=
  if F64.lt c threshold then fill_value else c.

Definition repaired_int (n : Z) : Z :=
  if n <? -30000 then -32767 else n.

(** One float64 cell after lines 84 and 86. *)
Definition normalized (uin : cf_units.Unit) (x : float) : float :=
  repaired (converted uin x).

(** An array after lines 84 and 86. *)
Definition normalized_values (uin : cf_units.Unit) (d : xr.nddata) : option xr.nddata :=
  match d with
  | xr.Floats xs => Some (xr.Floats (normalized uin <$> xs))
  | xr.Floats32 xs => Some (xr.Floats32 ((fun x => repaired (converted32 uin x)) <$> xs))
  | xr.Ints xs => Some (xr.Ints (repaired_int <$> xs))
  | xr.Datetimes _ => None
  end.

(** A labelled array with one size per dimension, no dimension twice, and
    one cell per position. *)
Definition well_formed (v : xr.DataArray) : Prop :=
  NoDup (xr.dims v) /\ length (xr.shape v) = length (xr.dims v) /\
  xr.size (xr.data v) = xr.product (xr.shape v).

(** ** Sample data *)

Module Sample.
Definition t0 : Z := 1712620800 * 10 ^ 9.

Definition axis (d : string) (n : nat) (xs : xr.nddata) : xr.DataArray :=
  xr.mkDataArray [d] [n] xs ∅.

Definition coords : xr.Dataset :=
  <["day"%string := axis "day"%string 2 (xr.Datetimes [t0 - pd.ns_per_day; t0 + 43200 * 10 ^ 9])]>
  (<["lat"%string := axis "lat"%string 1 (xr.Floats [F64.of_Z 45])]>
  (<["lon"%string := axis "lon"%string 2 (xr.Floats [F64.of_Z 10; F64.of_Z 11])]> ∅)).

(** A field on the 2 x 1 x 2 grid. *)
Definition grid (unit : string) (xs : list float) : xr.DataArray :=
  xr.mkDataArray ["day"%string; "lat"%string; "lon"%string] [2; 1; 2]%nat (xr.Floats xs)
                 {[ "units"%string := unit ]}.

Definition field (name unit : string) (xs : list float) : xr.Dataset :=
  <[name := grid unit xs]> coords.

Definition ones : list float := F64.of_Z <$> [1; 2; 3; 4].

(** Maximum temperatures in kelvin, one cell missing. *)
Definition tmax_K : list float :=
  [F64.of_Z 300; F64.of_Z 280; fill_value; F64.of_Z 290].
(** Minimum temperatures in kelvin; the second exceeds the maximum. *)
Definition tmin_K : list float :=
  [F64.of_Z 290; F64.of_Z 285; F64.of_Z 270; fill_value].

Definition server : gmap string xr.Dataset :=
  list_to_map
    [(url "vs"%string, field "wind_speed"%string "m/s"%string ones);
     (url "tmmx"%string, field "air_temperature"%string "K"%string tmax_K);
     (url "tmmn"%string, field "air_temperature"%string "K"%string tmin_K);
     (url "srad"%string, field "surface_downwelling_shortwave_flux_in_air"%string "W m-2"%string ones);
     (url "sph"%string, field "specific_humidity"%string "kg/kg"%string ones);
     (url "pr"%string, field "precipitation_amount"%string "mm"%string ones);
     (url "pet"%string, field "potential_evapotranspiration"%string "mm"%string ones)].

Definition config : Config :=
  mkConfig "/data/forecast"%string "/run/old.cfg"%string "/run/new.cfg"%string "/data/grid.nc"%string
           "/scratch"%string "2023-10-01"%string "2024-01-10"%string "2024-01-11"%string.

Definition world : World := mkWorld server ∅.

(** An engine that writes its output, and one that fails. *)
Definition cdo_ok : Cdo := mkCdo (fun _ _ output f => (Ok (), <[output := Blob]> f)).
Definition cdo_failing : Cdo := mkCdo (fun _ _ _ f => (Raise CDOException, f)).

(** A merged dataset with the two temperature grids. *)
Definition temperatures (unit : string) (tmin tmax : list float) : xr.Dataset :=
  <["tmmn"%string := xr.mkDataArray ["time"%string] [length tmin] (xr.Floats tmin) {[ "units"%string := unit ]}]>
  (<["tmmx"%string := xr.mkDataArray ["time"%string] [length tmax] (xr.Floats tmax) {[ "units"%string := unit ]}]> ∅).

(** A merged dataset whose time axis ends on 2024-04-09, at noon. *)
Definition timeline : xr.Dataset :=
  <["time"%string := axis "time"%string 2
      (xr.Datetimes [t0 - pd.ns_per_day; t0 + 43200 * 10 ^ 9])]> ∅.

(** What the fetch loop hands to the merge on this server. *)
Definition fetched : list xr.Dataset :=
  match (fetch varnames world).1 with
  | Ok dlist => dlist
  | Raise _ => []
  end.

(** One cell: minimum 10, maximum 5. *)
Definition crossed : xr.Dataset :=
  temperatures "degC"%string [F64.of_Z 10] [F64.of_Z 5].
(** Kelvin grids: a missing cell, a valid cell, a cell below -30000, NaN. *)
Definition kelvin_grids : xr.Dataset :=
  temperatures "K"%string
    [fill_value; F64.of_Z 270; F64.of_Z (-31000); S754_nan]
    [fill_value; F64.of_Z 280; F64.of_Z (-31000); S754_nan].

(** The merged and the harmonised dataset of this server. *)
Definition merged : xr.Dataset :=
  match xr.merge fetched with
  | Ok m => m
  | Raise _ => ∅
  end.

Definition harmonized : xr.Dataset :=
  match harmonize fetched with
  | Ok ds => ds
  | Raise _ => ∅
  end.

(** The dataset a step leaves, where it does not raise. *)
Definition after (step : xr.Dataset -> result xr.Dataset) (ds : xr.Dataset)
  : xr.Dataset :=
  match step ds with
  | Ok ds' => ds'
  | Raise _ => ∅
  end.

End Sample.

(** ** Vocabulary of the statements about the whole run *)

(** What one pass hands over: the dataset of the server, with
    [air_temperature] called by the code of the variable. *)
Definition delivered (var name : string) (xds : xr.Dataset) : result xr.Dataset :=
  if decide (name = "air_temperature"%string)
  then xr.rename "air_temperature" var xds
  else Ok xds.



(** The substitutions of lines 106-114, given the three dates. *)
Definition substitutions (config_dict : Config) (start stop restart : string)
  : list (string * pyval) :=
  [("START_DATE", PyStr (Start_Date config_dict));
   ("END_DATE", PyStr (End_Date config_dict));
   ("VIC_SAVE_STATE", PyStr (vic_save_state config_dict));
   ("MED_START_DATE", PyStr start);
   ("MED_END_DATE", PyStr stop);
   ("MED_VIC_SAVE_STATE", PyStr restart);
   ("SEAS_START_DATE", PyInt (-9999));
   ("SEAS_END_DATE", PyInt (-9999));
   ("SEAS_VIC_SAVE_STATE", PyInt (-9999))]%string.

(** ** Sample data: a server that is down, an engine that moves its
    input, grids of other dtypes, fields with the axes in another order *)

Module Scenario.

(** Kelvin grids of integers: a valid cell and a cell below -30000. *)
Definition kelvin_ints : xr.Dataset :=
  <["tmmn"%string := xr.mkDataArray ["time"%string] [2%nat] (xr.Ints [270; -32767])
                       {[ "units"%string := "K"%string ]}]>
  (<["tmmx"%string := xr.mkDataArray ["time"%string] [2%nat] (xr.Ints [280; -32767])
                        {[ "units"%string := "K"%string ]}]> ∅).

(** Kelvin grids of float32, and Celsius grids of float64 with a
    negative zero. *)
Definition kelvin_floats32 : xr.Dataset :=
  <["tmmn"%string := xr.mkDataArray ["time"%string] [2%nat]
                       (xr.Floats32 [F64.of_Z 270; fill_value])
                       {[ "units"%string := "K"%string ]}]>
  (<["tmmx"%string := xr.mkDataArray ["time"%string] [2%nat]
                        (xr.Floats32 [F64.of_Z 280; fill_value])
                        {[ "units"%string := "K"%string ]}]> ∅).

Definition celsius_zeros : xr.Dataset :=
  Sample.temperatures "degC"%string [S754_zero true] [S754_zero true].

(** A field on the 2 x 1 x 2 grid, with the axes in the order
    (lon, lat, day). *)
Definition grid_lon_first (unit : string) (xs : list float) : xr.DataArray :=
  xr.mkDataArray ["lon"%string; "lat"%string; "day"%string] [2; 1; 2]%nat (xr.Floats xs)
                 {[ "units"%string := unit ]}.

Definition field_lon_first (name unit : string) (xs : list float) : xr.Dataset :=
  <[name := grid_lon_first unit xs]> Sample.coords.

Definition server_lon_first : gmap string xr.Dataset :=
  list_to_map
    [(url "vs"%string, field_lon_first "wind_speed"%string "m/s"%string Sample.ones);
     (url "tmmx"%string, field_lon_first "air_temperature"%string "K"%string Sample.tmax_K);
     (url "tmmn"%string, field_lon_first "air_temperature"%string "K"%string Sample.tmin_K);
     (url "srad"%string, field_lon_first "surface_downwelling_shortwave_flux_in_air"%string "W m-2"%string Sample.ones);
     (url "sph"%string, field_lon_first "specific_humidity"%string "kg/kg"%string Sample.ones);
     (url "pr"%string, field_lon_first "precipitation_amount"%string "mm"%string Sample.ones);
     (url "pet"%string, field_lon_first "potential_evapotranspiration"%string "mm"%string Sample.ones)].

Definition fetched_lon_first : list xr.Dataset :=
  match (fetch varnames (mkWorld server_lon_first ∅)).1 with
  | Ok dlist => dlist
  | Raise _ => []
  end.

Definition merged_lon_first : xr.Dataset :=
  match xr.merge fetched_lon_first with
  | Ok m => m
  | Raise _ => ∅
  end.

Definition harmonized_lon_first : xr.Dataset :=
  match harmonize fetched_lon_first with
  | Ok ds => ds
  | Raise _ => ∅
  end.

(** A server that holds nothing. *)
Definition offline : World := mkWorld ∅ ∅.

(** An engine that moves its input to the output path. *)
Definition cdo_moving : Cdo :=
  mkCdo (fun _ input output f => (Ok (), <[output := Blob]> (delete input f))).

End Scenario.

(** * Properties *)

(** Closed equations between computable terms are settled by evaluation. *)
Ltac by_vm :=
  lazymatch goal with
  | |- ?l = ?r => vm_cast_no_check (@eq_refl _ r)
  end.

(** ** The order on floats *)

Section FloatOrder.

Lemma SFcompare_swap (x y : float) :
  SFcompare y x = CompOpp <$> SFcompare x y.
Proof.
  destruct x as [sx|sx| |sx mx ex], y as [sy|sy| |sy my ey]; simpl;
    try reflexivity; try (destruct sx; reflexivity);
    try (destruct sy; reflexivity);
    try (destruct sx, sy; reflexivity).
  destruct sx, sy; simpl; try reflexivity; f_equal;
    rewrite (Z.compare_antisym ex ey);
    destruct (ex ?= ey) eqn:E; simpl; try reflexivity;
    rewrite !Pos.compare_cont_spec; simpl;
    rewrite (Pos.compare_antisym mx my);
    destruct (mx ?= my)%positive; reflexivity.
Qed.


Lemma gt_lt (x y : float) : F64.gt x y = F64.lt y x.
Proof. reflexivity. Qed.

Lemma lt_asym (x y : float) : F64.lt x y = true -> F64.lt y x = false.
Proof.
  unfold F64.lt, SFltb. rewrite (SFcompare_swap x y).
  destruct (SFcompare x y) as [[]|]; simpl; congruence.
Qed.


Lemma le_not_lt (x y : float) : F64.le x y = true -> F64.lt y x = false.
Proof.
  unfold F64.lt, F64.le, SFltb, SFleb. rewrite (SFcompare_swap x y).
  destruct (SFcompare x y) as [[]|]; simpl; congruence.
Qed.







End FloatOrder.

(** ** Masked assignment *)

Section MaskedAssignment.
Context {A : Type}.
Implicit Types (a b rhs : list A) (mask : list bool).

Lemma length_setitem_mask a mask rhs :
  length (np.setitem_mask a mask rhs) = length a.
Proof.
  revert mask rhs. induction a as [|x a IH]; intros [|m mask] rhs; simpl; auto.
  destruct m; [destruct rhs|]; simpl; rewrite IH; reflexivity.
Qed.

(** [a[mask] = b[mask]] copies [b] into [a] exactly at the selected
    positions. *)
Lemma lookup_setitem_getitem a b mask (i : nat) x y (m : bool) :
  a !! i = Some x -> b !! i = Some y -> mask !! i = Some m ->
  np.setitem_mask a mask (np.getitem_mask b mask) !! i
  = Some (if m then y else x).
Proof.
  revert b mask i.
  induction a as [|x0 a IH]; intros [|y0 b] [|m0 mask] [|i]; simpl;
    try discriminate.
  - intros [= ->] [= ->] [= ->]. destruct m; reflexivity.
  - intros Ha Hb Hm. destruct m0; simpl; eauto.
Qed.

Lemma setitem_mask_none a mask rhs :
  Forall (fun m => m = false) mask -> np.setitem_mask a mask rhs = a.
Proof.
  intros H. revert a rhs.
  induction H as [|m mask -> _ IH]; intros [|x a] rhs; simpl; auto.
  rewrite IH. reflexivity.
Qed.

Lemma length_setitem_mask_scalar a mask (c : A) :
  length (np.setitem_mask_scalar a mask c) = length a.
Proof.
  revert mask. induction a as [|x a IH]; intros [|m mask]; simpl; auto.
Qed.

Lemma lookup_setitem_mask_scalar a mask (c : A) (i : nat) x (m : bool) :
  a !! i = Some x -> mask !! i = Some m ->
  np.setitem_mask_scalar a mask c !! i = Some (if m then c else x).
Proof.
  revert mask i.
  induction a as [|x0 a IH]; intros [|m0 mask] [|i]; simpl; try discriminate.
  - intros [= ->] [= ->]. reflexivity.
  - eauto.
Qed.

End MaskedAssignment.

(** ** The exchange of lines 93-95, on cells of any kind *)

Section Exchange.
Context {A : Type} (gt : A -> A -> bool) (keep : A -> bool).
Hypothesis gt_asym : forall a b, gt a b = true -> gt b a = false.

(** The mask of line 93, cell by cell. *)
Lemma lookup_mask (tmin tmax : list A) (i : nat) a b :
  tmin !! i = Some a -> tmax !! i = Some b ->
  np.logical_and (zip_with gt tmin tmax) (map keep tmax) !! i
  = Some (gt a b && keep b).
Proof.
  intros Ha Hb. unfold np.logical_and.
  rewrite !lookup_zip_with, list_lookup_fmap, Ha, Hb. reflexivity.
Qed.

Lemma lookup_mask_inv (tmin tmax : list A) (i : nat) m :
  np.logical_and (zip_with gt tmin tmax) (map keep tmax) !! i = Some m ->
  exists a b, tmin !! i = Some a /\ tmax !! i = Some b.
Proof.
  unfold np.logical_and.
  rewrite !lookup_zip_with, list_lookup_fmap.
  destruct (tmin !! i) as [a|], (tmax !! i) as [b|]; simpl; try discriminate.
  eauto.
Qed.

Lemma length_exchanged (tmin tmax : list A) :
  length (exchanged gt keep tmin tmax).1 = length tmin /\
  length (exchanged gt keep tmin tmax).2 = length tmax.
Proof. split; apply length_setitem_mask. Qed.

(** After the exchange no cell asks for another one. *)
Lemma exchanged_mask_none (tmin tmax : list A) :
  Forall (fun m => m = false)
    (np.logical_and
       (zip_with gt (exchanged gt keep tmin tmax).1 (exchanged gt keep tmin tmax).2)
       (map keep (exchanged gt keep tmin tmax).2)).
Proof.
  apply Forall_lookup. intros i m Hm.
  destruct (lookup_mask_inv _ _ _ _ Hm) as (lo & hi & Hlo & Hhi).
  rewrite (lookup_mask _ _ i lo hi Hlo Hhi) in Hm. injection Hm as <-.
  unfold exchanged in Hlo, Hhi. simpl in Hlo, Hhi.
  assert (La : (i < length tmin)%nat).
  { apply lookup_lt_Some in Hlo. rewrite length_setitem_mask in Hlo. exact Hlo. }
  assert (Lb : (i < length tmax)%nat).
  { apply lookup_lt_Some in Hhi. rewrite length_setitem_mask in Hhi. exact Hhi. }
  destruct (lookup_lt_is_Some_2 tmin i La) as [a Ha].
  destruct (lookup_lt_is_Some_2 tmax i Lb) as [b Hb].
  pose proof (lookup_mask tmin tmax i a b Ha Hb) as Hsw.
  rewrite (lookup_setitem_getitem tmin tmax _ i a b _ Ha Hb Hsw) in Hlo.
  rewrite (lookup_setitem_getitem tmax tmin _ i b a _ Hb Ha Hsw) in Hhi.
  destruct (gt a b) eqn:Hgt; simpl in Hlo, Hhi.
  - destruct (keep b) eqn:Hne;
      injection Hlo as <-; injection Hhi as <-.
    + rewrite (gt_asym _ _ Hgt). reflexivity.
    + rewrite Hgt, Hne. reflexivity.
  - injection Hlo as <-. injection Hhi as <-. rewrite Hgt. reflexivity.
Qed.

Lemma exchanged_exchanged (tmin tmax : list A) :
  exchanged gt keep (exchanged gt keep tmin tmax).1 (exchanged gt keep tmin tmax).2
  = exchanged gt keep tmin tmax.
Proof.
  pose proof (exchanged_mask_none tmin tmax) as Hnone.
  destruct (exchanged gt keep tmin tmax) as [tmin' tmax'] eqn:E. simpl in Hnone.
  unfold exchanged at 1. simpl.
  rewrite !(setitem_mask_none _ _ _ Hnone). reflexivity.
Qed.

End Exchange.

(** The float grids are exchanged by [>] and [!= -32767.]. *)
Lemma swapped_exchanged (tmin tmax : list float) :
  swapped tmin tmax = exchanged F64.gt (fun x => F64.ne x fill_value) tmin tmax.
Proof. reflexivity. Qed.

Lemma gt_asym (a b : float) : F64.gt a b = true -> F64.gt b a = false.
Proof. rewrite !gt_lt. apply lt_asym. Qed.

Lemma gtb_asym (a b : Z) : (a >? b) = true -> (b >? a) = false.
Proof. lia. Qed.

(** The mask of line 93, cell by cell. *)
Lemma lookup_swap_values (tmin tmax : list float) (i : nat) a b :
  tmin !! i = Some a -> tmax !! i = Some b ->
  np.logical_and (np.greater tmin tmax) (np.not_equal_scalar tmax fill_value) !! i
  = Some (F64.gt a b && F64.ne b fill_value).
Proof. apply (lookup_mask F64.gt (fun x => F64.ne x fill_value)). Qed.

Lemma swapped_swapped (tmin tmax : list float) :
  swapped (swapped tmin tmax).1 (swapped tmin tmax).2 = swapped tmin tmax.
Proof. rewrite !swapped_exchanged. apply exchanged_exchanged, gt_asym. Qed.

Lemma swapped_int_swapped_int (tmin tmax : list Z) :
  swapped_int (swapped_int tmin tmax).1 (swapped_int tmin tmax).2
  = swapped_int tmin tmax.
Proof. apply exchanged_exchanged, gtb_asym. Qed.

(** ** The consistency step *)

(** The two arrays after the step: the dtype stays, the number of cells
    stays, and a second exchange finds nothing to do. *)
Lemma swapped_values_size (tmin tmax tmin' tmax' : xr.nddata) :
  swapped_values tmin tmax = Some (tmin', tmax') ->
  xr.size tmin' = xr.size tmin /\ xr.size tmax' = xr.size tmax.
Proof.
  destruct tmin, tmax; simpl; try discriminate; intros [= <- <-]; simpl;
    split; apply length_setitem_mask.
Qed.

Lemma swapped_values_idempotent (tmin tmax tmin' tmax' : xr.nddata) :
  swapped_values tmin tmax = Some (tmin', tmax') ->
  swapped_values tmin' tmax' = Some (tmin', tmax').
Proof.
  destruct tmin as [a|a|a|a], tmax as [b|b|b|b]; cbn [swapped_values];
    try discriminate; intros H;
    match type of H with
    | Some (?x, ?y) = _ =>
        assert (tmin' = x) as -> by congruence;
        assert (tmax' = y) as -> by congruence
    end; cbn [swapped_values];
    rewrite ?swapped_swapped, ?swapped_int_swapped_int; reflexivity.
Qed.

(** What a successful run of [enforce] did. *)
Lemma enforce_Ok (ds ds' : xr.Dataset) :
  enforce ds = Ok ds' ->
  exists vmin vmax dmin dmax,
    ds !! "tmmn"%string = Some vmin /\ ds !! "tmmx"%string = Some vmax /\
    xr.shape vmin = xr.shape vmax /\
    swapped_values (xr.data vmin) (xr.data vmax) = Some (dmin, dmax) /\
    ds' = <["tmmx"%string := xr.set_data vmax dmax]>
            (<["tmmn"%string := xr.set_data vmin dmin]> ds).
Proof.
  unfold enforce, xr.getitem, setitem_values, xr.getitem.
  destruct (ds !! "tmmn"%string) as [vmin|] eqn:Hmin; simpl; [|discriminate].
  destruct (ds !! "tmmx"%string) as [vmax|] eqn:Hmax; simpl; [|discriminate].
  case_bool_decide as Hshape; [|discriminate].
  intros H. exists vmin, vmax.
  destruct (xr.data vmin) as [a|a|a|a] eqn:Dmin, (xr.data vmax) as [b|b|b|b] eqn:Dmax;
    simpl in H; try discriminate H;
    rewrite ?Dmin in H; simpl in H;
    rewrite lookup_insert_ne in H by discriminate;
    rewrite Hmax in H; simpl in H; rewrite Dmax in H; simpl in H;
    injection H as <-; eexists _, _; repeat split; reflexivity || assumption.
Qed.

Lemma enforce_run (ds : xr.Dataset) (vmin vmax : xr.DataArray)
    (dmin dmax : xr.nddata) :
  ds !! "tmmn"%string = Some vmin -> ds !! "tmmx"%string = Some vmax ->
  xr.shape vmin = xr.shape vmax ->
  swapped_values (xr.data vmin) (xr.data vmax) = Some (dmin, dmax) ->
  enforce ds =
  Ok (<["tmmx"%string := xr.set_data vmax dmax]>
        (<["tmmn"%string := xr.set_data vmin dmin]> ds)).
Proof.
  intros Hmin Hmax Hshape Hsw.
  unfold enforce, setitem_values, xr.getitem.
  rewrite Hmin. simpl. rewrite Hmax. simpl.
  rewrite bool_decide_eq_true_2 by exact Hshape.
  destruct (xr.data vmin) as [a|a|a|a] eqn:Dmin, (xr.data vmax) as [b|b|b|b] eqn:Dmax;
    simpl in Hsw; try discriminate Hsw; injection Hsw as <- <-; simpl;
    rewrite ?Dmin; simpl;
    rewrite lookup_insert_ne by discriminate;
    rewrite Hmax; simpl; rewrite Dmax; reflexivity.
Qed.

(** With float64 cells on both sides. *)
Lemma enforce_Ok_floats (ds ds' : xr.Dataset) (vmin vmax : xr.DataArray)
    (tmin tmax : list float) :
  enforce ds = Ok ds' ->
  ds !! "tmmn"%string = Some vmin -> xr.data vmin = xr.Floats tmin ->
  ds !! "tmmx"%string = Some vmax -> xr.data vmax = xr.Floats tmax ->
  ds' = <["tmmx"%string := xr.set_data vmax (xr.Floats (swapped tmin tmax).2)]>
          (<["tmmn"%string := xr.set_data vmin (xr.Floats (swapped tmin tmax).1)]> ds).
Proof.
  intros H Hmin Dmin Hmax Dmax.
  destruct (enforce_Ok _ _ H) as (vmin' & vmax' & dmin & dmax & Hmin' & Hmax' & _ & Hsw & ->).
  rewrite Hmin in Hmin'. injection Hmin' as <-.
  rewrite Hmax in Hmax'. injection Hmax' as <-.
  rewrite Dmin, Dmax in Hsw. simpl in Hsw. injection Hsw as <- <-. reflexivity.
Qed.

Lemma cell_Some (ds : xr.Dataset) (var : string) (i : nat) (x : float) :
  cell ds var i = Some x ->
  exists v xs, ds !! var = Some v /\ xr.data v = xr.Floats xs /\ xs !! i = Some x.
Proof.
  unfold cell. destruct (ds !! var) as [v|]; [|discriminate].
  destruct (xr.data v) as [xs|xs|xs|xs] eqn:D; try discriminate.
  intros H. exists v, xs. auto.
Qed.

Lemma cell_insert_floats (ds : xr.Dataset) (var : string) (v : xr.DataArray)
    (xs : list float) (i : nat) :
  cell (<[var := xr.set_data v (xr.Floats xs)]> ds) var i = xs !! i.
Proof. unfold cell. rewrite lookup_insert_eq. reflexivity. Qed.

Lemma cell_insert_ne (ds : xr.Dataset) (var var' : string) (v : xr.DataArray)
    (i : nat) :
  var ≠ var' -> cell (<[var := v]> ds) var' i = cell ds var' i.
Proof. intros H. unfold cell. rewrite lookup_insert_ne by assumption. reflexivity. Qed.

(** The cells after [enforce], from the cells before. *)
Lemma enforce_cells (ds ds' : xr.Dataset) (i : nat) (a b : float) :
  enforce ds = Ok ds' ->
  cell ds "tmmn" i = Some a -> cell ds "tmmx" i = Some b ->
  let swap := F64.gt a b && F64.ne b fill_value in
  cell ds' "tmmn" i = Some (if swap then b else a) /\
  cell ds' "tmmx" i = Some (if swap then a else b).
Proof.
  intros H Ha Hb.
  destruct (cell_Some _ _ _ _ Ha) as (vmin & tmin & Hmin & Dmin & Ha').
  destruct (cell_Some _ _ _ _ Hb) as (vmax & tmax & Hmax & Dmax & Hb').
  rewrite (enforce_Ok_floats _ _ _ _ _ _ H Hmin Dmin Hmax Dmax).
  pose proof (lookup_swap_values tmin tmax i a b Ha' Hb') as Hm.
  simpl. split.
  - rewrite cell_insert_ne by discriminate. rewrite cell_insert_floats.
    apply lookup_setitem_getitem; assumption.
  - rewrite cell_insert_floats.
    apply lookup_setitem_getitem; assumption.
Qed.

(** [enforce] keeps the dtype and the extent of both grids. *)
Lemma enforce_cells_inv (ds ds' : xr.Dataset) (i : nat) (lo hi : float) :
  enforce ds = Ok ds' ->
  cell ds' "tmmn" i = Some lo -> cell ds' "tmmx" i = Some hi ->
  exists a b, cell ds "tmmn" i = Some a /\ cell ds "tmmx" i = Some b.
Proof.
  intros H.
  destruct (enforce_Ok _ _ H)
    as (vmin & vmax & dmin & dmax & Hmin & Hmax & _ & Hsw & ->).
  unfold cell. rewrite lookup_insert_ne by discriminate.
  rewrite !lookup_insert_eq, Hmin, Hmax. simpl.
  destruct (xr.data vmin) as [tmin|?|?|?], (xr.data vmax) as [tmax|?|?|?];
    simpl in Hsw; try discriminate Hsw; injection Hsw as <- <-;
    try discriminate.
  intros Hlo Hhi.
  apply lookup_lt_Some in Hlo, Hhi. rewrite length_setitem_mask in Hlo, Hhi.
  destruct (lookup_lt_is_Some_2 tmin i Hlo) as [a Ha].
  destruct (lookup_lt_is_Some_2 tmax i Hhi) as [b Hb].
  eauto.
Qed.



(** C9: the consistency step is idempotent; a second pass over its own
    output changes no cell.  This holds for all grids, those whose valid
    values lie above -30000 among them. *)
Theorem enforce_idempotent (ds ds' : xr.Dataset) :
  enforce ds = Ok ds' -> enforce ds' = Ok ds'.
Proof.
  intros H.
  destruct (enforce_Ok _ _ H)
    as (vmin & vmax & dmin & dmax & Hmin & Hmax & Hshape & Hsw & ->).
  set (vmin' := xr.set_data vmin dmin).
  set (vmax' := xr.set_data vmax dmax).
  assert (L1 : (<["tmmx"%string := vmax']> (<["tmmn"%string := vmin']> ds))
               !! "tmmn"%string = Some vmin').
  { rewrite lookup_insert_ne by discriminate. apply lookup_insert_eq. }
  assert (L2 : (<["tmmx"%string := vmax']> (<["tmmn"%string := vmin']> ds))
               !! "tmmx"%string = Some vmax').
  { apply lookup_insert_eq. }
  rewrite (enforce_run _ vmin' vmax' dmin dmax L1 L2 Hshape
             (swapped_values_idempotent _ _ _ _ Hsw)).
  f_equal.
  assert (E1 : xr.set_data vmin' dmin = vmin') by reflexivity.
  assert (E2 : xr.set_data vmax' dmax = vmax') by reflexivity.
  rewrite E1, E2.
  rewrite (insert_id _ "tmmn"%string vmin' L1).
  apply insert_id. exact L2.
Qed.

(** ** The normalisation step *)

Lemma fix_fill_map (xs : list float) :
  fix_fill xs = (fun c => if F64.lt c threshold then fill_value else c) <$> xs.
Proof.
  unfold fix_fill, np.less_scalar.
  induction xs as [|x xs IH]; simpl; [reflexivity|].
  f_equal. exact IH.
Qed.

Lemma fix_fill_int_map (xs : list Z) : fix_fill_int xs = repaired_int <$> xs.
Proof.
  unfold fix_fill_int.
  induction xs as [|x xs IH]; simpl; [reflexivity|].
  f_equal. exact IH.
Qed.

(** Lines 84 and 86 on an array, cell by cell. *)
Lemma normalized_values_Ok (uin : cf_units.Unit) (d d1 d2 : xr.nddata) :
  cf_units.convert uin d cf_units.celsius = Ok d1 ->
  fix_fill_values d1 = Ok d2 ->
  normalized_values uin d = Some d2.
Proof.
  unfold cf_units.convert, normalized_values, normalized, converted, converted32.
  destruct (decide (uin = cf_units.celsius)) as [E|E];
    destruct d as [xs|xs|xs|xs]; simpl; try discriminate;
    intros [= <-]; simpl; try discriminate; intros [= <-];
    rewrite ?fix_fill_map, ?fix_fill_int_map, <- ?list_fmap_compose;
    reflexivity.
Qed.

Lemma normalized_values_run (uin : cf_units.Unit) (d d2 : xr.nddata) :
  normalized_values uin d = Some d2 ->
  exists d1, cf_units.convert uin d cf_units.celsius = Ok d1 /\
    fix_fill_values d1 = Ok d2.
Proof.
  unfold cf_units.convert, normalized_values, normalized, converted, converted32.
  destruct (decide (uin = cf_units.celsius)) as [E|E];
    destruct d as [xs|xs|xs|xs]; simpl; try discriminate;
    intros [= <-]; eexists; (split; [reflexivity|]); simpl;
    rewrite ?fix_fill_map, ?fix_fill_int_map, <- ?list_fmap_compose;
    reflexivity.
Qed.

Lemma normalized_values_size (uin : cf_units.Unit) (d d' : xr.nddata) :
  normalized_values uin d = Some d' -> xr.size d' = xr.size d.
Proof.
  destruct d; simpl; try discriminate; intros [= <-]; simpl; apply length_fmap.
Qed.

Lemma units_out_designated (var : string) :
  designated var ->
  units_out var = Ok cf_units.celsius /\
  cf_units.assoc var new_units = Some "degC"%string.
Proof. intros [-> | ->]; split; reflexivity. Qed.

(** What one pass of the loop of lines 80-87 does. *)
Lemma normalize_var_Ok (ds ds' : xr.Dataset) (var : string) :
  designated var ->
  normalize_var ds var = Ok ds' ->
  exists v uin d',
    ds !! var = Some v /\ units_in ds var = Ok uin /\
    normalized_values uin (xr.data v) = Some d' /\
    ds' = <[var := xr.set_attr (xr.set_data v d') "units" "degC"]> ds.
Proof.
  intros Hvar. destruct (units_out_designated var Hvar) as [Hout Hnu].
  unfold normalize_var. rewrite Hout, Hnu.
  destruct (units_in ds var) as [uin|] eqn:Hin; simpl; [|discriminate].
  unfold xr.getitem.
  destruct (ds !! var) as [v|] eqn:Hv; simpl; [|discriminate].
  destruct (cf_units.convert uin (xr.data v) cf_units.celsius) as [d1|] eqn:H1;
    simpl; [|discriminate].
  destruct (fix_fill_values d1) as [d2|] eqn:H2; simpl; [|discriminate].
  intros [= <-].
  exists v, uin, d2. rewrite (normalized_values_Ok _ _ _ _ H1 H2). auto.
Qed.

Lemma normalize_var_run (ds : xr.Dataset) (var : string) (v : xr.DataArray)
    (uin : cf_units.Unit) (d' : xr.nddata) :
  designated var ->
  ds !! var = Some v -> units_in ds var = Ok uin ->
  normalized_values uin (xr.data v) = Some d' ->
  normalize_var ds var
  = Ok (<[var := xr.set_attr (xr.set_data v d') "units" "degC"]> ds).
Proof.
  intros Hvar Hv Hin Hd. destruct (units_out_designated var Hvar) as [Hout Hnu].
  destruct (normalized_values_run _ _ _ Hd) as (d1 & H1 & H2).
  unfold normalize_var. rewrite Hout, Hnu, Hin. simpl.
  unfold xr.getitem. rewrite Hv. simpl. rewrite H1. simpl. rewrite H2. reflexivity.
Qed.

Lemma units_in_frame (ds : xr.Dataset) (var var' : string) (v : xr.DataArray) :
  var ≠ var' -> units_in (<[var := v]> ds) var' = units_in ds var'.
Proof.
  intros H. unfold units_in, xr.getitem.
  rewrite lookup_insert_ne by assumption. reflexivity.
Qed.

Lemma unit_attr_insert_ne (ds : xr.Dataset) (var var' : string) (v : xr.DataArray) :
  var ≠ var' -> unit_attr (<[var := v]> ds) var' = unit_attr ds var'.
Proof.
  intros H. unfold unit_attr. rewrite lookup_insert_ne by assumption. reflexivity.
Qed.

Lemma normalize_steps (ds ds' : xr.Dataset) :
  normalize ds = Ok ds' <->
  exists ds1, normalize_var ds "tmmn" = Ok ds1 /\ normalize_var ds1 "tmmx" = Ok ds'.
Proof.
  unfold normalize. simpl. unfold mbind, result_bind. split.
  - intros H. destruct (normalize_var ds "tmmn") as [ds1|e]; [|discriminate].
    exists ds1. split; [reflexivity|].
    destruct (normalize_var ds1 "tmmx") as [ds2|e]; [assumption|discriminate].
  - intros (ds1 & -> & ->). reflexivity.
Qed.

(** The whole loop, for either temperature variable: the variable after
    the loop is the variable before it with its cells normalised and its
    unit set. *)
Lemma normalize_lookup (ds ds' : xr.Dataset) (var : string) :
  designated var ->
  normalize ds = Ok ds' ->
  exists v uin d',
    ds !! var = Some v /\ units_in ds var = Ok uin /\
    normalized_values uin (xr.data v) = Some d' /\
    ds' !! var = Some (xr.set_attr (xr.set_data v d') "units" "degC").
Proof.
  intros Hvar H. apply normalize_steps in H as (ds1 & H1 & H2).
  apply normalize_var_Ok in H1 as (v1 & u1 & d1 & Hv1 & Hu1 & Hd1 & ->);
    [|left; reflexivity].
  apply normalize_var_Ok in H2 as (v2 & u2 & d2 & Hv2 & Hu2 & Hd2 & ->);
    [|right; reflexivity].
  rewrite lookup_insert_ne in Hv2 by discriminate.
  rewrite units_in_frame in Hu2 by discriminate.
  destruct Hvar as [-> | ->].
  - exists v1, u1, d1. repeat split; try assumption.
    rewrite lookup_insert_ne by discriminate. apply lookup_insert_eq.
  - exists v2, u2, d2. repeat split; try assumption.
    apply lookup_insert_eq.
Qed.

Lemma normalize_spec (ds ds' : xr.Dataset) (var : string) :
  designated var ->
  normalize ds = Ok ds' ->
  exists uin,
    units_in ds var = Ok uin /\
    unit_attr ds' var = Some "degC"%string /\
    forall i, cell ds' var i = normalized uin <$> cell ds var i.
Proof.
  intros Hvar H.
  destruct (normalize_lookup _ _ _ Hvar H) as (v & uin & d' & Hv & Hin & Hd & Hv').
  exists uin. split; [exact Hin|]. split.
  - unfold unit_attr. rewrite Hv'. simpl. apply lookup_insert_eq.
  - intros i. unfold cell. rewrite Hv, Hv'. simpl.
    destruct (xr.data v) as [xs|xs|xs|xs]; simpl in Hd; try discriminate;
      injection Hd as <-; try reflexivity.
    apply list_lookup_fmap.
Qed.

Lemma fill_below_threshold : F64.lt fill_value threshold = true.
Proof. reflexivity. Qed.




(** ** Staging and regridding *)

(** What the three calls of lines 125-127 come to, by the outcome of the
    engine. *)
Lemma regrid_outcome (cdo : Cdo) (config_dict : Config) (model : string)
    (merge_ds : xr.Dataset) (w : World) :
  match remapcon cdo (GridFile config_dict) (temporary_path config_dict model)
          (outfile_path config_dict model) (staged config_dict model merge_ds w) with
  | (Ok _, f) =>
      regrid cdo config_dict model merge_ds w
      = os_remove (temporary_path config_dict model) (set_fs w f)
  | (Raise e, f) =>
      regrid cdo config_dict model merge_ds w = (Raise e, set_fs w f)
  end.
Proof.
  unfold regrid, staged, mbind, IO_bind, to_netcdf, cdo_remapcon. simpl.
  destruct (remapcon cdo _ _ _ _) as [[[]|e] f]; reflexivity.
Qed.

Lemma os_remove_absent (path : string) (w : World) :
  fs (os_remove path w).2 !! path = None.
Proof.
  unfold os_remove. destruct (fs w !! path) eqn:E; simpl.
  - apply lookup_delete_eq.
  - exact E.
Qed.

(** C1, as the code has it: when the regrid operation succeeds, the
    staging file is absent after the regrid step; when it raises, the
    exception leaves the step at once, no removal is attempted, and the
    files are as the engine left them. *)
Theorem regrid_cleanup (cdo : Cdo) (config_dict : Config) (model : string)
    (merge_ds : xr.Dataset) (w : World) :
  match remapcon cdo (GridFile config_dict) (temporary_path config_dict model)
          (outfile_path config_dict model) (staged config_dict model merge_ds w) with
  | (Ok _, _) =>
      fs (regrid cdo config_dict model merge_ds w).2
        !! temporary_path config_dict model = None
  | (Raise e, f) =>
      regrid cdo config_dict model merge_ds w = (Raise e, set_fs w f)
  end.
Proof.
  pose proof (regrid_outcome cdo config_dict model merge_ds w) as H.
  destruct (remapcon cdo _ _ _ _) as [[[]|e] f].
  - rewrite H. apply os_remove_absent.
  - exact H.
Qed.

(** A failing engine leaves the staged file behind. *)
Lemma regrid_failure_keeps_staging (cdo : Cdo) (config_dict : Config)
    (model : string) (merge_ds : xr.Dataset) (w : World) (e : exn) :
  remapcon cdo (GridFile config_dict) (temporary_path config_dict model)
    (outfile_path config_dict model) (staged config_dict model merge_ds w)
  = (Raise e, staged config_dict model merge_ds w) ->
  (regrid cdo config_dict model merge_ds w).1 = Raise e /\
  fs (regrid cdo config_dict model merge_ds w).2
    !! temporary_path config_dict model = Some (NetCDF merge_ds).
Proof.
  intros H. pose proof (regrid_outcome cdo config_dict model merge_ds w) as R.
  rewrite H in R. rewrite R. simpl. split; [reflexivity|].
  unfold staged. apply lookup_insert_eq.
Qed.

(** C1 fails as stated: in a run of [main] whose engine raises, the
    exception reaches the caller and the staging file is still there. *)
Lemma staging_left_after_failure :
  (main Sample.cdo_failing Sample.config Sample.world).1 = Raise CDOException /\
  fs (main Sample.cdo_failing Sample.config Sample.world).2
    !! temporary_path Sample.config "CFSv2" = Some (NetCDF Sample.harmonized).
Proof. split; by_vm. Qed.

(** With the engine at work the same run removes it. *)
Example staging_removed_after_success :
  (main Sample.cdo_ok Sample.config Sample.world).1 = Ok () /\
  fs (main Sample.cdo_ok Sample.config Sample.world).2
    !! temporary_path Sample.config "CFSv2" = None /\
  fs (main Sample.cdo_ok Sample.config Sample.world).2
    !! outfile_path Sample.config "CFSv2" = Some Blob.
Proof. repeat split; by_vm. Qed.

Lemma regrid_cleanup_witness :
  fs (regrid Sample.cdo_ok Sample.config "CFSv2" Sample.harmonized Sample.world).2
    !! temporary_path Sample.config "CFSv2" = None.
Proof.
  exact (regrid_cleanup Sample.cdo_ok Sample.config "CFSv2" Sample.harmonized
           Sample.world).
Defined.

(** ** The forecast window *)

Section Calendar.
Import datetime.

Lemma is_char_range (c : ascii) (lo hi : Z) :
  is_char c lo hi = true ->
  lo <= Z.of_nat (nat_of_ascii c) - 48 <= hi.
Proof. unfold is_char. intros H. apply andb_prop in H. lia. Qed.

Lemma parse_Y_range (s rest : string) (y : Z) :
  parse_Y s = Some (y, rest) -> 0 <= y <= 9999.
Proof.
  unfold parse_Y.
  destruct s as [|a [|b [|c [|d r]]]]; try discriminate.
  unfold digit_val.
  repeat match goal with
         | |- context [if ?b then _ else _] => destruct b eqn:?; try discriminate
         end.
  intros [= <- _]. lia.
Qed.

Lemma parse_m_dash_range (s rest : string) (m : Z) :
  parse_m_dash s = Some (m, rest) -> 1 <= m <= 12.
Proof.
  unfold parse_m_dash.
  destruct s as [|a [|b [|c r]]]; try discriminate;
    repeat match goal with
           | |- context [if ?b then _ else _] => destruct b eqn:?; try discriminate
           end;
    intros [= <- _];
    repeat match goal with
           | H : _ && _ = true |- _ => apply andb_prop in H; destruct H
           | H : is_char _ _ _ = true |- _ => apply is_char_range in H
           end; lia.
Qed.

Lemma parse_d_range (s rest : string) (d : Z) :
  parse_d s = Some (d, rest) -> 1 <= d <= 31.
Proof.
  unfold parse_d.
  destruct s as [|a [|b r]]; try discriminate;
    repeat match goal with
           | |- context [if ?b then _ else _] => destruct b eqn:?; try discriminate
           end;
    intros [= <- _];
    repeat match goal with
           | H : _ && _ = true |- _ => apply andb_prop in H; destruct H
           | H : is_char _ _ _ = true |- _ => apply is_char_range in H
           end; lia.
Qed.

(** A date that [strptime] accepts is a date of the calendar. *)
Lemma strptime_valid (s : string) (d : date) :
  strptime s = Ok d ->
  1 <= year d <= 9999 /\ 1 <= month d <= 12 /\
  1 <= day d <= days_in_month (year d) (month d).
Proof.
  unfold strptime.
  destruct (parse_Y s) as [[y [|c r]]|] eqn:HY; try discriminate.
  case_bool_decide; [|discriminate].
  destruct (parse_m_dash r) as [[m r']|] eqn:HM; [|discriminate].
  destruct (parse_d r') as [[dd [|? ?]]|] eqn:HD; try discriminate.
  destruct ((1 <=? y) && (dd <=? days_in_month y m)) eqn:E; [|discriminate].
  intros [= <-]. simpl.
  apply andb_prop in E. destruct E as [E1 E2].
  apply parse_Y_range in HY. apply parse_m_dash_range in HM.
  apply parse_d_range in HD. lia.
Qed.

Lemma days_before_year_nonneg (y : Z) : 1 <= y -> 0 <= days_before_year y.
Proof.
  intros H. unfold days_before_year.
  pose proof (Z.div_pos (y - 1) 400). 
  assert ((y - 1) / 100 <= (y - 1) / 4).
  { apply Z.div_le_compat_l; lia. }
  lia.
Qed.

Lemma days_before_month_nonneg (y m : Z) :
  1 <= m <= 12 -> 0 <= days_before_month y m.
Proof.
  intros H. unfold days_before_month.
  assert (0 <= DAYS_BEFORE_MONTH m).
  { assert (m = 1 \/ m = 2 \/ m = 3 \/ m = 4 \/ m = 5 \/ m = 6 \/ m = 7 \/
            m = 8 \/ m = 9 \/ m = 10 \/ m = 11 \/ m = 12) as Hm by lia.
    repeat destruct Hm as [-> | Hm]; try subst m; simpl; lia. }
  destruct ((2 <? m) && is_leap y); lia.
Qed.

Lemma strptime_ordinal (s : string) (d : date) :
  strptime s = Ok d -> 1 <= ymd2ord d.
Proof.
  intros H. apply strptime_valid in H. destruct H as (Hy & Hm & Hd).
  unfold ymd2ord.
  pose proof (days_before_year_nonneg (year d)).
  pose proof (days_before_month_nonneg (year d) (month d)).
  lia.
Qed.

Lemma nat_of_digit_char (n : Z) :
  Z.of_nat (nat_of_ascii (digit_char n)) = 48 + n mod 10.
Proof.
  unfold digit_char.
  pose proof (Z.mod_pos_bound n 10).
  rewrite nat_ascii_embedding by lia. lia.
Qed.




Lemma is_leap_spec (y : Z) :
  is_leap y = true <-> (y mod 4 = 0 /\ (y mod 100 <> 0 \/ y mod 400 = 0)).
Proof.
  unfold is_leap. rewrite andb_true_iff, orb_true_iff, negb_true_iff.
  rewrite !Z.eqb_eq, Z.eqb_neq. tauto.
Qed.

Lemma days_before_year_succ (y : Z) :
  1 <= y ->
  days_before_year (y + 1) = days_before_year y + 365 + (if is_leap y then 1 else 0).
Proof.
  intros Hy. unfold days_before_year.
  replace (y + 1 - 1) with y by lia.
  pose proof (is_leap_spec y) as L.
  destruct (is_leap y).
  - destruct L as [L _]. specialize (L eq_refl).
    Z.to_euclidean_division_equations. lia.
  - assert (~ (y mod 4 = 0 /\ (y mod 100 <> 0 \/ y mod 400 = 0))) as N
      by (intros H; apply L in H; discriminate).
    clear L.
    Z.to_euclidean_division_equations. lia.
Qed.

Lemma month_cases (m : Z) :
  1 <= m <= 12 ->
  m = 1 \/ m = 2 \/ m = 3 \/ m = 4 \/ m = 5 \/ m = 6 \/ m = 7 \/
  m = 8 \/ m = 9 \/ m = 10 \/ m = 11 \/ m = 12.
Proof. lia. Qed.

Ltac month_estimate :=
  match goal with
  | |- context [(?a + ?dd - 1 + 50) / 32] =>
      let q := fresh "q" in
      let Hq := fresh "Hq" in
      remember ((a + dd - 1 + 50) / 32) as q eqn:Hq;
      let k := eval cbv in ((a + 50) / 32) in
      let k1 := eval cbv in ((a + 50) / 32 + 1) in
      assert (q = k \/ q = k1) as [-> | ->]
        by (subst q; Z.to_euclidean_division_equations; lia)
  end.

Lemma month_day_correct (y m dd : Z) :
  1 <= m <= 12 -> 1 <= dd <= days_in_month y m ->
  month_day y (is_leap y) (days_before_month y m + dd - 1) = mkDate y m dd.
Proof.
  intros Hm Hd. unfold month_day, days_before_month, days_in_month in *.
  rewrite Z.shiftr_div_pow2 by lia. change (2 ^ 5) with 32.
  destruct (is_leap y);
    destruct (month_cases m Hm) as [-> | [-> | [-> | [-> | [-> | [-> | [-> | [-> | [-> | [-> | [-> | ->]]]]]]]]]]];
    cbn in Hd |- *; month_estimate; cbn;
    repeat match goal with
           | |- context [?a - 1 =? ?b] =>
               let r := eval cbv in (a - 1 =? b) in
               change (a - 1 =? b) with r
           end;
    cbn;
    repeat match goal with
           | |- context [?a <? ?b] => destruct (Z.ltb_spec a b)
           end;
    try (exfalso; Z.to_euclidean_division_equations; lia);
    f_equal; try lia; Z.to_euclidean_division_equations; lia.
Qed.

Lemma div_mod_unique (n d q r : Z) :
  0 <= r < d -> n = d * q + r -> n / d = q /\ n mod d = r.
Proof.
  intros Hr Hn. split.
  - symmetry. apply (Z.div_unique n d q r); [left; exact Hr|exact Hn].
  - symmetry. apply (Z.mod_unique n d q r); [left; exact Hr|exact Hn].
Qed.

(** The year in 400-, 100-, 4- and 1-year cycles. *)
Lemma year_decompose (y : Z) :
  1 <= y ->
  exists a b c d,
    0 <= a /\ 0 <= b <= 3 /\ 0 <= c <= 24 /\ 0 <= d <= 3 /\
    y = 400 * a + 100 * b + 4 * c + d + 1 /\
    days_before_year y = 146097 * a + 36524 * b + 1461 * c + 365 * d /\
    (is_leap y = true <-> d = 3 /\ (c <> 24 \/ b = 3)).
Proof.
  intros Hy.
  exists ((y - 1) / 400), ((y - 1) mod 400 / 100), ((y - 1) mod 100 / 4), ((y - 1) mod 4).
  rewrite is_leap_spec. unfold days_before_year. cbv zeta.
  repeat split; try (Z.to_euclidean_division_equations; lia).
  all: intros; Z.to_euclidean_division_equations; lia.
Qed.

Lemma month_day_last (y : Z) : month_day y true 365 = mkDate y 12 31.
Proof. reflexivity. Qed.

Lemma ord2ymd_year (y k : Z) :
  1 <= y -> 0 <= k < 365 + (if is_leap y then 1 else 0) ->
  ord2ymd (days_before_year y + k + 1) = month_day y (is_leap y) k.
Proof.
  intros Hy Hk.
  destruct (year_decompose y Hy) as (a & b & c & d & Ha & Hb & Hc & Hd & Ey & Edby & Hleap).
  assert (Hk365 : k = 365 -> is_leap y = true /\ d = 3 /\ (c <> 24 \/ b = 3)).
  { intros ->. destruct (is_leap y); [|lia]. split; [reflexivity|]. apply Hleap. reflexivity. }
  assert (Hk0 : 0 <= k <= 365) by (destruct (is_leap y); lia).
  unfold ord2ymd, DI400Y, DI100Y, DI4Y. cbv zeta. rewrite Edby.
  destruct (div_mod_unique (146097 * a + 36524 * b + 1461 * c + 365 * d + k + 1 - 1)
              146097 a (36524 * b + 1461 * c + 365 * d + k)) as [-> ->]; [lia|lia|].
  destruct (Z.eq_dec k 365) as [K|K].
  - destruct (Hk365 K) as (L & -> & Hcb). subst k. rewrite L, month_day_last.
    destruct (Z.eq_dec c 24) as [->|C].
    + destruct Hcb as [Hcb|Hcb]; [congruence|]. subst b.
      change (36524 * 3 + 1461 * 24 + 365 * 3 + 365) with 146096.
      change (146096 / 36524) with 4. change (146096 mod 36524) with 0.
      change (0 / 1461) with 0. change (0 mod 1461) with 0.
      change (0 / 365) with 0.
      change ((0 =? 4) || (4 =? 4)) with true. cbv iota. f_equal. lia.
    + destruct (div_mod_unique (36524 * b + 1461 * c + 365 * 3 + 365)
                  36524 b (1461 * c + 365 * 3 + 365)) as [-> ->]; [lia|lia|].
      destruct (div_mod_unique (1461 * c + 365 * 3 + 365) 1461 c 1460)
        as [-> ->]; [lia|lia|].
      change (1460 / 365) with 4.
      change ((4 =? 4) || (b =? 4)) with true. cbv iota. f_equal. lia.
  - assert (Hk' : 0 <= k < 365) by (destruct (is_leap y); lia).
    destruct (div_mod_unique (36524 * b + 1461 * c + 365 * d + k)
                36524 b (1461 * c + 365 * d + k)) as [-> ->]; [lia|lia|].
    destruct (div_mod_unique (1461 * c + 365 * d + k) 1461 c (365 * d + k))
      as [-> ->]; [lia|lia|].
    destruct (div_mod_unique (365 * d + k) 365 d k) as [-> ->]; [lia|lia|].
    replace ((d =? 4) || (b =? 4)) with false
      by (symmetry; apply orb_false_iff; split; apply Z.eqb_neq; lia).
    f_equal; [lia|].
    destruct (is_leap y) eqn:L.
    + destruct Hleap as [Hl _]. destruct (Hl eq_refl) as [-> Hcb].
      apply andb_true_iff. split; [reflexivity|].
      apply orb_true_iff. destruct Hcb as [Hcb| ->].
      * left. apply negb_true_iff, Z.eqb_neq. exact Hcb.
      * right. reflexivity.
    + destruct ((d =? 3) && (negb (c =? 24) || (b =? 3))) eqn:B; [|reflexivity].
      exfalso. apply andb_true_iff in B. destruct B as [B1 B2].
      apply Z.eqb_eq in B1. apply orb_true_iff in B2.
      assert (Hf : false = true); [|discriminate Hf].
      apply Hleap. split; [exact B1|].
      destruct B2 as [B2|B2].
      * left. apply negb_true_iff, Z.eqb_neq in B2. exact B2.
      * right. apply Z.eqb_eq. exact B2.
Qed.

Lemma days_before_month_bounds (y m : Z) :
  1 <= m <= 12 ->
  0 <= days_before_month y m /\
  days_before_month y m + days_in_month y m <= 365 + (if is_leap y then 1 else 0).
Proof.
  intros Hm. unfold days_before_month, days_in_month.
  destruct (is_leap y);
    destruct (month_cases m Hm) as [-> | [-> | [-> | [-> | [-> | [-> | [-> | [-> | [-> | [-> | [-> | ->]]]]]]]]]]];
    cbn; lia.
Qed.

Lemma days_before_month_succ (y m : Z) :
  1 <= m < 12 ->
  days_before_month y (m + 1) = days_before_month y m + days_in_month y m.
Proof.
  intros Hm. unfold days_before_month, days_in_month.
  assert (Hm' : 1 <= m <= 12) by lia.
  destruct (is_leap y);
    destruct (month_cases m Hm') as [-> | [-> | [-> | [-> | [-> | [-> | [-> | [-> | [-> | [-> | [-> | ->]]]]]]]]]]];
    first [reflexivity | lia].
Qed.

Lemma days_in_month_pos (y m : Z) : 28 <= days_in_month y m <= 31.
Proof.
  unfold days_in_month.
  destruct (m =? 2); [destruct (is_leap y); lia|].
  destruct ((m =? 4) || (m =? 6) || (m =? 9) || (m =? 11)); lia.
Qed.

(** [ord2ymd] undoes [ymd2ord] on the dates of the calendar. *)
Lemma ord2ymd_ymd2ord (d : date) : valid d -> ord2ymd (ymd2ord d) = d.
Proof.
  destruct d as [y m dd]. unfold valid, ymd2ord. simpl. intros (Hy & Hm & Hd).
  destruct (days_before_month_bounds y m Hm) as [B1 B2].
  replace (days_before_year y + days_before_month y m + dd)
    with (days_before_year y + (days_before_month y m + dd - 1) + 1) by lia.
  rewrite ord2ymd_year by lia.
  apply month_day_correct; assumption.
Qed.

(** The day after, by the rules of the calendar, is the next ordinal. *)
Lemma ymd2ord_next_day (d : date) :
  valid d -> valid (next_day d) /\ ymd2ord (next_day d) = ymd2ord d + 1.
Proof.
  destruct d as [y m dd]. unfold valid, next_day, ymd2ord. simpl.
  intros (Hy & Hm & Hd).
  destruct (Z.ltb_spec dd (days_in_month y m)) as [H|H]; simpl.
  - split; lia.
  - destruct (Z.ltb_spec m 12) as [H12|H12]; simpl.
    + pose proof (days_in_month_pos y (m + 1)).
      rewrite days_before_month_succ by lia. split; lia.
    + assert (m = 12) as -> by lia.
      rewrite days_before_year_succ by lia.
      unfold days_before_month, days_in_month in *. cbn in *.
      destruct (is_leap y); split; lia.
Qed.

Lemma ymd2ord_first : ymd2ord (mkDate 1 1 1) = 1.
Proof. reflexivity. Qed.

(** Every positive ordinal is the ordinal of a date. *)
Lemma ordinal_has_date (o : Z) : 1 <= o -> exists d, valid d /\ ymd2ord d = o.
Proof.
  intros Ho. pattern o. apply (Zlt_lower_bound_ind _ 1); [|exact Ho].
  clear o Ho. intros o IH Ho.
  destruct (Z.eq_dec o 1) as [->|Hne].
  - exists (mkDate 1 1 1). split; [|reflexivity].
    unfold valid. cbn. lia.
  - destruct (IH (o - 1)) as (d & Hv & Hd); [lia|].
    exists (next_day d). destruct (ymd2ord_next_day d Hv) as [Hv' Hn].
    split; [exact Hv'|]. lia.
Qed.

Lemma ymd2ord_ord2ymd (o : Z) :
  1 <= o -> valid (ord2ymd o) /\ ymd2ord (ord2ymd o) = o.
Proof.
  intros Ho. destruct (ordinal_has_date o Ho) as (d & Hv & <-).
  rewrite (ord2ymd_ymd2ord d Hv). split; [exact Hv|reflexivity].
Qed.

(** Adding one to the ordinal is stepping to the next day. *)
Lemma ord2ymd_succ (o : Z) : 1 <= o -> ord2ymd (o + 1) = next_day (ord2ymd o).
Proof.
  intros Ho. destruct (ymd2ord_ord2ymd o Ho) as [Hv He].
  destruct (ymd2ord_next_day _ Hv) as [Hv' Hn].
  rewrite <- He at 1. rewrite <- Hn. apply ord2ymd_ymd2ord. exact Hv'.
Qed.

Lemma days_before_year_mono (y y' : Z) :
  y <= y' -> days_before_year y <= days_before_year y'.
Proof.
  intros H. unfold days_before_year. Z.to_euclidean_division_equations. lia.
Qed.

Lemma year_of_ordinal (d : date) (Y : Z) :
  valid d ->
  (days_before_year Y < ymd2ord d -> Y <= year d) /\
  (ymd2ord d <= days_before_year (Y + 1) -> year d <= Y).
Proof.
  destruct d as [y m dd]. unfold valid, ymd2ord. simpl. intros (Hy & Hm & Hd).
  pose proof (days_before_month_bounds y m Hm) as [Hb1 Hb2].
  pose proof (days_before_year_succ y Hy) as Hs.
  split; intros Hord.
  - destruct (Z_le_gt_dec Y y) as [|Hgt]; [done|].
    pose proof (days_before_year_mono (y + 1) Y ltac:(lia)). lia.
  - destruct (Z_le_gt_dec y Y) as [|Hgt]; [done|].
    pose proof (days_before_year_mono (Y + 1) y ltac:(lia)). lia.
Qed.


End Calendar.

Lemma last_time_day_after (t : Z) :
  pd.date_of (t + 1 * pd.ns_per_day)
  = datetime.ord2ymd (pd.epoch_ordinal + t / pd.ns_per_day + 1).
Proof.
  unfold pd.date_of. f_equal.
  rewrite Z.div_add by (unfold pd.ns_per_day; lia). lia.
Qed.


(** A prior end date in the year 99 gives a start date of nine
    characters. *)
Example forecast_window_short_year :
  datetime.strptime "0099-12-31" = Ok (datetime.mkDate 99 12 31) /\
  datetime.strftime (datetime.next_day (datetime.mkDate 99 12 31)) = "100-01-01"%string.
Proof. split; reflexivity. Qed.

(** ** Renaming and merging *)

Lemma rename_Ok (k v : string) (ds ds' : xr.Dataset) (x : xr.DataArray) :
  xr.rename k v ds = Ok ds' -> ds !! k = Some x ->
  ds' = <[v := xr.rename_dims k v x]> (delete k (xr.rename_dims k v <$> ds)).
Proof.
  unfold xr.rename. intros H Hk.
  destruct (bool_decide (ds !! k = None) && negb (xr.has_dim ds k)); [discriminate|].
  destruct (bool_decide (is_Some (ds !! v)) && bool_decide (k ≠ v)); [discriminate|].
  rewrite lookup_fmap, Hk in H. simpl in H. congruence.
Qed.

Lemma rename_fresh (k v : string) (ds ds' : xr.Dataset) :
  xr.rename k v ds = Ok ds' -> k ≠ v -> ds !! v = None.
Proof.
  unfold xr.rename. intros H Hne.
  destruct (bool_decide (ds !! k = None) && negb (xr.has_dim ds k)); [discriminate|].
  destruct (ds !! v) eqn:E; [|reflexivity].
  rewrite bool_decide_eq_true_2 in H by eauto.
  rewrite bool_decide_eq_true_2 in H by assumption. discriminate.
Qed.

Lemma rename_lookup (k v : string) (ds ds' : xr.Dataset) (x : xr.DataArray) :
  xr.rename k v ds = Ok ds' -> k ≠ v -> ds !! k = Some x ->
  ds' !! v = Some (xr.rename_dims k v x) /\
  ds' !! k = None /\
  forall n, n ≠ k -> n ≠ v -> ds' !! n = xr.rename_dims k v <$> ds !! n.
Proof.
  intros H Hne Hk. rewrite (rename_Ok _ _ _ _ _ H Hk). split; [|split].
  - apply lookup_insert_eq.
  - rewrite lookup_insert_ne by congruence. apply lookup_delete_eq.
  - intros n Hn1 Hn2. rewrite lookup_insert_ne by congruence.
    rewrite lookup_delete_ne by congruence. apply lookup_fmap.
Qed.

Lemma candidates_cons (k : string) (d : xr.Dataset) (dl : list xr.Dataset) :
  xr.candidates k (d :: dl) =
  match d !! k with
  | Some v => v :: xr.candidates k dl
  | None => xr.candidates k dl
  end.
Proof. reflexivity. Qed.

Lemma candidates_nil (k : string) (dl : list xr.Dataset) :
  Forall (fun m : xr.Dataset => m !! k = None) dl -> xr.candidates k dl = [].
Proof.
  induction 1 as [|d dl Hd _ IH]; [reflexivity|].
  rewrite candidates_cons, Hd. exact IH.
Qed.

(** The merged dataset, name by name. *)
Lemma merge_lookup (dlist : list xr.Dataset) (m : xr.Dataset) (k : string) :
  xr.merge dlist = Ok m ->
  m !! k = xr.unique_variable (xr.candidates k dlist).
Proof.
  unfold xr.merge. case_bool_decide; [|discriminate]. intros [= <-].
  rewrite lookup_omap. unfold xr.resolve. rewrite map_lookup_imap.
  destruct ((⋃ dlist) !! k) eqn:E; simpl; [reflexivity|].
  apply lookup_union_list_None_1 in E.
  rewrite (candidates_nil _ _ E). reflexivity.
Qed.

(** ** Fetching *)

Lemma fetch_one_plain (var name : string) (w : World) :
  name ≠ "air_temperature"%string ->
  fetch_one var name w = (from_option (OSError (url var)) (remote w !! url var), w).
Proof.
  intros H. unfold fetch_one, mbind, IO_bind, open_dataset.
  destruct (remote w !! url var); simpl; [|reflexivity].
  destruct (decide (name = "air_temperature"%string)); [congruence|reflexivity].
Qed.

Lemma fetch_one_air (var : string) (w : World) :
  fetch_one var "air_temperature" w =
  match remote w !! url var with
  | Some xds => (xr.rename "air_temperature" var xds, w)
  | None => (Raise (OSError (url var)), w)
  end.
Proof.
  unfold fetch_one, mbind, IO_bind, open_dataset.
  destruct (remote w !! url var); simpl; [|reflexivity].
  destruct (decide ("air_temperature"%string = "air_temperature"%string));
    [reflexivity|congruence].
Qed.

Lemma fetch_cons (var name : string) (rest : list (string * string)) (w : World) :
  fetch ((var, name) :: rest) w =
  match fetch_one var name w with
  | (Ok xds, w1) =>
      match fetch rest w1 with
      | (Ok dlist, w2) => (Ok (xds :: dlist), w2)
      | (Raise e, w2) => (Raise e, w2)
      end
  | (Raise e, w1) => (Raise e, w1)
  end.
Proof. reflexivity. Qed.

(** The seven passes of the loop of line 66, when none raises. *)
Lemma fetch_varnames (w w' : World) (dlist : list xr.Dataset) :
  fetch varnames w = (Ok dlist, w') ->
  exists d_vs dx dn d_srad d_sph d_pr d_pet dx' dn',
    remote w !! url "vs" = Some d_vs /\
    remote w !! url "tmmx" = Some dx /\
    remote w !! url "tmmn" = Some dn /\
    remote w !! url "srad" = Some d_srad /\
    remote w !! url "sph" = Some d_sph /\
    remote w !! url "pr" = Some d_pr /\
    remote w !! url "pet" = Some d_pet /\
    xr.rename "air_temperature" "tmmx" dx = Ok dx' /\
    xr.rename "air_temperature" "tmmn" dn = Ok dn' /\
    dlist = [d_vs; dx'; dn'; d_srad; d_sph; d_pr; d_pet] /\ w' = w.
Proof.
  unfold varnames. rewrite fetch_cons.
  rewrite (fetch_one_plain "vs") by discriminate.
  destruct (remote w !! url "vs") as [d_vs|]; cbn [from_option]; [|discriminate].
  rewrite fetch_cons, (fetch_one_air "tmmx").
  destruct (remote w !! url "tmmx") as [dx|]; [|discriminate].
  destruct (xr.rename "air_temperature" "tmmx" dx) as [dx'|] eqn:Rx; [|discriminate].
  rewrite fetch_cons, (fetch_one_air "tmmn").
  destruct (remote w !! url "tmmn") as [dn|]; [|discriminate].
  destruct (xr.rename "air_temperature" "tmmn" dn) as [dn'|] eqn:Rn; [|discriminate].
  rewrite fetch_cons, (fetch_one_plain "srad") by discriminate.
  destruct (remote w !! url "srad") as [d_srad|]; cbn [from_option]; [|discriminate].
  rewrite fetch_cons, (fetch_one_plain "sph") by discriminate.
  destruct (remote w !! url "sph") as [d_sph|]; cbn [from_option]; [|discriminate].
  rewrite fetch_cons, (fetch_one_plain "pr") by discriminate.
  destruct (remote w !! url "pr") as [d_pr|]; cbn [from_option]; [|discriminate].
  rewrite fetch_cons, (fetch_one_plain "pet") by discriminate.
  destruct (remote w !! url "pet") as [d_pet|]; cbn [from_option]; [|discriminate].
  intros [= <- <-].
  exists d_vs, dx, dn, d_srad, d_sph, d_pr, d_pet, dx', dn'.
  repeat split; first [reflexivity | assumption].
Qed.

(** C7: each of the two temperature series arrives under the shared name
    [air_temperature]; the fetch step renames it to the variable's own
    code right after retrieval, so that the merged dataset holds the
    maximum under "tmmx" and the minimum under "tmmn", each with its own
    data, and nothing under the shared name from these two. *)
Theorem fetch_retags_temperatures (w w' : World) (dlist : list xr.Dataset)
    (dx dn m : xr.Dataset) (X N : xr.DataArray) :
  fetch varnames w = (Ok dlist, w') ->
  remote w !! url "tmmx" = Some dx -> dx !! "air_temperature"%string = Some X ->
  remote w !! url "tmmn" = Some dn -> dn !! "air_temperature"%string = Some N ->
  (forall var name ds, (var, name) ∈ varnames -> remote w !! url var = Some ds ->
     ds !! "tmmx"%string = None /\ ds !! "tmmn"%string = None) ->
  xr.merge dlist = Ok m ->
  (exists dx' dn',
     dlist !! 1%nat = Some dx' /\ dlist !! 2%nat = Some dn' /\
     dx' !! "tmmx"%string = Some (xr.rename_dims "air_temperature" "tmmx" X) /\
     dx' !! "air_temperature"%string = None /\
     dn' !! "tmmn"%string = Some (xr.rename_dims "air_temperature" "tmmn" N) /\
     dn' !! "air_temperature"%string = None) /\
  m !! "tmmx"%string = Some (xr.rename_dims "air_temperature" "tmmx" X) /\
  m !! "tmmn"%string = Some (xr.rename_dims "air_temperature" "tmmn" N).
Proof.
  intros Hf Hdx HX Hdn HN Hfree Hm.
  destruct (fetch_varnames _ _ _ Hf)
    as (d_vs & dx0 & dn0 & d_srad & d_sph & d_pr & d_pet & dx' & dn'
        & E1 & E2 & E3 & E4 & E5 & E6 & E7 & Rx & Rn & -> & ->).
  rewrite Hdx in E2. injection E2 as <-.
  rewrite Hdn in E3. injection E3 as <-.
  destruct (rename_lookup _ _ _ _ _ Rx ltac:(discriminate) HX) as (Lx & Lxk & Lxo).
  destruct (rename_lookup _ _ _ _ _ Rn ltac:(discriminate) HN) as (Ln & Lnk & Lno).
  assert (F : forall i var name ds, varnames !! i = Some (var, name) ->
                remote w !! url var = Some ds ->
                ds !! "tmmx"%string = None /\ ds !! "tmmn"%string = None).
  { intros i var name ds Hi. apply (Hfree var name).
    apply (list_elem_of_lookup_2 _ i). exact Hi. }
  destruct (F 0%nat _ _ _ eq_refl E1) as [A1 B1].
  destruct (F 1%nat _ _ _ eq_refl Hdx) as [A2 B2].
  destruct (F 2%nat _ _ _ eq_refl Hdn) as [A3 B3].
  destruct (F 3%nat _ _ _ eq_refl E4) as [A4 B4].
  destruct (F 4%nat _ _ _ eq_refl E5) as [A5 B5].
  destruct (F 5%nat _ _ _ eq_refl E6) as [A6 B6].
  destruct (F 6%nat _ _ _ eq_refl E7) as [A7 B7].
  assert (Lxn : dx' !! "tmmn"%string = None).
  { rewrite Lxo by discriminate. rewrite B2. reflexivity. }
  assert (Lnx : dn' !! "tmmx"%string = None).
  { rewrite Lno by discriminate. rewrite A3. reflexivity. }
  split; [|split].
  - exists dx', dn'. repeat split; assumption.
  - rewrite (merge_lookup _ _ "tmmx" Hm). rewrite !candidates_cons.
    rewrite A1, Lx, Lnx, A4, A5, A6, A7. reflexivity.
  - rewrite (merge_lookup _ _ "tmmn" Hm). rewrite !candidates_cons.
    rewrite B1, Lxn, Ln, B4, B5, B6, B7. reflexivity.
Qed.

(** Without the renaming the two series would meet under one name: the
    merge of the raw sample series raises. *)
Example raw_temperatures_collide :
  xr.merge [Sample.field "air_temperature" "K" Sample.tmax_K;
            Sample.field "air_temperature" "K" Sample.tmin_K] = Raise MergeError.
Proof. by_vm. Qed.

(** ** Labels and dimension order *)

Section Layout.
Local Open Scope nat_scope.

Lemma omap_lookup_seq {A} (g : nat -> nat) (pre xs : list A) :
  (forall k, length pre <= k < length pre + length xs -> g k = k) ->
  omap (fun k => (pre ++ xs) !! g k) (seq (length pre) (length xs)) = xs.
Proof.
  revert pre. induction xs as [|x xs IH]; intros pre Hg; [reflexivity|].
  simpl. rewrite Hg by (simpl; lia).
  rewrite list_lookup_middle by reflexivity.
  f_equal.
  assert (E : pre ++ x :: xs = (pre ++ [x]) ++ xs)
    by (rewrite <- app_assoc; reflexivity).
  rewrite E.
  replace (S (length pre)) with (length (pre ++ [x]))
    by (rewrite length_app; simpl; lia).
  apply IH. intros k Hk. apply Hg.
  rewrite length_app in Hk. simpl in *. lia.
Qed.

(** Transposing a one-dimensional array onto its own axis keeps it. *)
Lemma transpose_flat_1d {A} (n : nat) (xs : list A) :
  length xs = n -> xr.transpose_flat [n] [0] xs = xs.
Proof.
  intros <-. unfold xr.transpose_flat. simpl.
  rewrite Nat.mul_1_r.
  apply (omap_lookup_seq
           (fun k => xr.offset (xr.unravel [length xs] k) [1]) [] xs).
  intros k Hk. simpl in Hk.
  unfold xr.offset, xr.unravel. simpl.
  change (Nat.divmod k 0 0 0).1 with (k / 1).
  rewrite Nat.div_1_r, Nat.mod_small by lia. lia.
Qed.

Lemma transpose_var_1d (d : string) (n : nat) (v : xr.DataArray) :
  xr.dims v = [d] -> xr.shape v = [n] -> xr.size (xr.data v) = n ->
  xr.transpose_var [d] v = v.
Proof.
  destruct v as [dims shape data attrs]. simpl. intros -> -> Hn.
  unfold xr.transpose_var. simpl.
  unfold xr.index_of. simpl. rewrite decide_True by reflexivity. simpl.
  destruct data as [xs|xs|xs|xs]; simpl in Hn;
    rewrite (transpose_flat_1d n xs Hn); reflexivity.
Qed.
End Layout.

(** The label [day] is gone after the renaming. *)
Lemma rename_day_time (ds ds1 : xr.Dataset) :
  xr.rename "day" "time" ds = Ok ds1 ->
  ds1 !! "day"%string = None /\
  (forall n v, ds1 !! n = Some v -> "day"%string ∉ xr.dims v) /\
  (forall c, ds !! "day"%string = Some c ->
     ds1 !! "time"%string = Some (xr.rename_dims "day" "time" c)) /\
  (forall n, n ≠ "day"%string -> n ≠ "time"%string ->
     ds1 !! n = xr.rename_dims "day" "time" <$> ds !! n).
Proof.
  intros H.
  assert (Hdims : forall v, "day"%string ∉ xr.dims (xr.rename_dims "day" "time" v)).
  { intros v. simpl. intros Hin. apply list_elem_of_fmap in Hin.
    destruct Hin as (d & Hd & _). unfold xr.rename_dim in Hd.
    destruct (decide (d = "day"%string)); [discriminate|congruence]. }
  destruct (ds !! "day"%string) as [c|] eqn:Hc.
  - rewrite (rename_Ok _ _ _ _ _ H Hc). split; [|split; [|split]].
    + rewrite lookup_insert_ne by discriminate. apply lookup_delete_eq.
    + intros n v Hv.
      destruct (decide (n = "time"%string)) as [->|Hn].
      * rewrite lookup_insert_eq in Hv. injection Hv as <-. apply Hdims.
      * rewrite lookup_insert_ne in Hv by congruence.
        apply lookup_delete_Some in Hv. destruct Hv as [_ Hv].
        rewrite lookup_fmap in Hv.
        destruct (ds !! n); [|discriminate]. simpl in Hv.
        injection Hv as <-. apply Hdims.
    + intros c' [= <-]. apply lookup_insert_eq.
    + intros n Hn1 Hn2. rewrite lookup_insert_ne by congruence.
      rewrite lookup_delete_ne by congruence. apply lookup_fmap.
  - unfold xr.rename in H.
    destruct (bool_decide (ds !! "day"%string = None) && negb (xr.has_dim ds "day"));
      [discriminate|].
    destruct (bool_decide (is_Some (ds !! "time"%string))
              && bool_decide ("day"%string ≠ "time"%string)); [discriminate|].
    rewrite lookup_fmap, Hc in H. simpl in H. injection H as <-.
    split; [|split; [|split]].
    + rewrite lookup_fmap, Hc. reflexivity.
    + intros n v Hv. rewrite lookup_fmap in Hv.
      destruct (ds !! n); [|discriminate]. injection Hv as <-. apply Hdims.
    + intros c' [=].
    + intros n _ _. apply lookup_fmap.
Qed.

Lemma same_layout_insert (ds : xr.Dataset) (var : string) (v v' : xr.DataArray) :
  var = "tmmn"%string \/ var = "tmmx"%string ->
  ds !! var = Some v -> xr.dims v' = xr.dims v ->
  same_layout ds (<[var := v']> ds).
Proof.
  intros Hvar Hv Hd. split.
  - intros n. destruct (decide (var = n)) as [<-|Hn].
    + rewrite lookup_insert_eq, Hv. simpl. congruence.
    + rewrite lookup_insert_ne by assumption. reflexivity.
  - intros n H1 H2. apply lookup_insert_ne. destruct Hvar; congruence.
Qed.

Lemma same_layout_trans (a b c : xr.Dataset) :
  same_layout a b -> same_layout b c -> same_layout a c.
Proof.
  intros [H1 H2] [H3 H4]. split.
  - intros n. rewrite H3. apply H1.
  - intros n Hn Hx. rewrite H4 by assumption. apply H2; assumption.
Qed.

Lemma normalize_layout (ds ds' : xr.Dataset) :
  normalize ds = Ok ds' -> same_layout ds ds'.
Proof.
  unfold normalize. simpl.
  destruct (normalize_var ds "tmmn") as [ds1|] eqn:H1; simpl; [|discriminate].
  destruct (normalize_var ds1 "tmmx") as [ds2|] eqn:H2; simpl; [|discriminate].
  intros [= <-].
  destruct (normalize_var_Ok _ _ _ (or_introl eq_refl) H1)
    as (v1 & u1 & xs1 & Hv1 & _ & _ & ->).
  destruct (normalize_var_Ok _ _ _ (or_intror eq_refl) H2)
    as (v2 & u2 & xs2 & Hv2 & _ & _ & ->).
  eapply same_layout_trans; cycle 1.
  - apply (same_layout_insert _ "tmmx" v2); [right; reflexivity|exact Hv2|reflexivity].
  - apply (same_layout_insert ds "tmmn" v1); [left; reflexivity|exact Hv1|reflexivity].
Qed.

Lemma enforce_layout (ds ds' : xr.Dataset) :
  enforce ds = Ok ds' -> same_layout ds ds'.
Proof.
  intros H.
  destruct (enforce_Ok _ _ H)
    as (vmin & vmax & dmin & dmax & Hmin & Hmax & _ & _ & ->).
  eapply same_layout_trans; cycle 1.
  - apply (same_layout_insert _ "tmmx" vmax); [right; reflexivity| |reflexivity].
    rewrite lookup_insert_ne by discriminate. exact Hmax.
  - apply (same_layout_insert ds "tmmn" vmin); [left; reflexivity|exact Hmin|reflexivity].
Qed.

Lemma transpose_Ok (new_dims : list string) (ds ds' : xr.Dataset) :
  xr.transpose new_dims ds = Ok ds' ->
  ds' = (fun v => xr.transpose_var (filter (fun d => d ∈ xr.dims v) new_dims) v) <$> ds.
Proof.
  unfold xr.transpose.
  destruct (_ && _); [|discriminate]. intros [= <-]. reflexivity.
Qed.

(** A sub-sequence of (time, lat, lon) with three entries is all of it. *)
Lemma filter_canonical_full (P : string -> Prop) `{!forall d, Decision (P d)} :
  length (filter P canonical_dims) = 3%nat -> filter P canonical_dims = canonical_dims.
Proof.
  unfold canonical_dims. rewrite !filter_cons, filter_nil.
  destruct (decide (P "time"%string)), (decide (P "lat"%string)),
    (decide (P "lon"%string)); simpl; intros Hlen; try discriminate Hlen; reflexivity.
Qed.

Lemma canonical_no_day : "day"%string ∉ canonical_dims.
Proof.
  unfold canonical_dims. intros H.
  repeat (apply elem_of_cons in H; destruct H as [H|H]; [discriminate H|]).
  apply elem_of_nil in H. exact H.
Qed.

(** ** Transposition: every labelled cell stays where its labels say *)

Section Transposition.
Local Open Scope nat_scope.

Lemma offset_cons (i s : nat) (idx sts : list nat) :
  xr.offset (i :: idx) (s :: sts) = i * s + xr.offset idx sts.
Proof. reflexivity. Qed.

(** *** Positions along the axes and flat positions *)

Lemma unravel_cons (n : nat) (rest : list nat) (k : nat) :
  xr.unravel (n :: rest) k = ((k / xr.product rest) mod n) :: xr.unravel rest k.
Proof. reflexivity. Qed.

Lemma unravel_shift (shp : list nat) (q r : nat) :
  xr.unravel shp (q * xr.product shp + r) = xr.unravel shp r.
Proof.
  revert q. induction shp as [|n rest IH]; intros q; [reflexivity|].
  rewrite !unravel_cons.
  change (xr.product (n :: rest)) with (n * xr.product rest).
  replace (q * (n * xr.product rest) + r) with ((q * n) * xr.product rest + r) by lia.
  rewrite IH. f_equal.
  destruct (Nat.eq_dec (xr.product rest) 0) as [E|E].
  - rewrite E. rewrite !Nat.mul_0_r. reflexivity.
  - rewrite Nat.div_add_l by exact E.
    rewrite Nat.add_comm, Nat.Div0.mod_add. reflexivity.
Qed.

Lemma offset_lt (idx shp : list nat) :
  Forall2 lt idx shp -> xr.offset idx (xr.strides shp) < xr.product shp.
Proof.
  induction 1 as [|i n idx shp Hi _ IH].
  - cbv. lia.
  - change (xr.strides (n :: shp)) with (xr.product shp :: xr.strides shp).
    rewrite offset_cons.
    change (xr.product (n :: shp)) with (n * xr.product shp).
    assert ((i + 1) * xr.product shp <= n * xr.product shp)
      by (apply Nat.mul_le_mono_r; lia).
    lia.
Qed.

Lemma unravel_offset (idx shp : list nat) :
  Forall2 lt idx shp -> xr.unravel shp (xr.offset idx (xr.strides shp)) = idx.
Proof.
  induction 1 as [|i n idx shp Hi Hrest IH]; [reflexivity|].
  change (xr.strides (n :: shp)) with (xr.product shp :: xr.strides shp).
  rewrite offset_cons, unravel_cons, unravel_shift, IH.
  pose proof (offset_lt idx shp Hrest) as Hlt.
  f_equal.
  rewrite Nat.div_add_l by lia.
  rewrite (Nat.div_small _ _ Hlt), Nat.add_0_r.
  apply Nat.mod_small. exact Hi.
Qed.

Lemma length_strides (shp : list nat) : length (xr.strides shp) = length shp.
Proof. induction shp as [|n rest IH]; simpl; [done|]. by rewrite IH. Qed.

Lemma length_unravel (shp : list nat) (k : nat) :
  length (xr.unravel shp k) = length shp.
Proof.
  unfold xr.unravel. rewrite length_zip_with, length_strides. lia.
Qed.

Lemma unravel_lt (shp : list nat) (k : nat) :
  k < xr.product shp -> Forall2 lt (xr.unravel shp k) shp.
Proof.
  revert k. induction shp as [|n rest IH]; intros k Hk; [constructor|].
  rewrite unravel_cons.
  change (xr.product (n :: rest)) with (n * xr.product rest) in Hk.
  constructor.
  - apply Nat.mod_upper_bound. lia.
  - destruct (Nat.eq_dec (xr.product rest) 0) as [E|E]; [rewrite E in Hk; lia|].
    rewrite (Nat.div_mod_eq k (xr.product rest)) at 1.
    rewrite (Nat.mul_comm (xr.product rest)), unravel_shift.
    apply IH. apply Nat.mod_upper_bound. exact E.
Qed.

(** *** Reading a list of optional cells *)

Lemma lookup_omap_seq {A} (g : nat -> option A) (n K : nat) :
  (forall k, k < n -> is_Some (g k)) -> K < n ->
  omap g (seq 0 n) !! K = g K.
Proof.
  intros Hall HK.
  assert (forall m, m <= n -> exists l, omap g (seq 0 m) = l /\ length l = m /\
            forall k, k < m -> l !! k = g k) as H.
  { induction m as [|m IH]; intros Hm.
    - exists []. split; [reflexivity|]. split; [reflexivity|].
      intros k Hk. lia.
    - destruct IH as (l & El & Ll & Hl); [lia|].
      destruct (Hall m ltac:(lia)) as [y Hy].
      exists (l ++ [y]). rewrite seq_S, omap_app, El. simpl. rewrite Hy. simpl.
      split; [reflexivity|]. split; [rewrite length_app; simpl; lia|].
      intros k Hk. destruct (decide (k = m)) as [->|Hne].
      + rewrite lookup_app_r by lia. replace (m - length l) with 0 by lia.
        simpl. congruence.
      + rewrite lookup_app_l by lia. apply Hl. lia. }
  destruct (H n (le_n n)) as (l & -> & _ & Hl). apply Hl. exact HK.
Qed.

(** *** The axes of a dimension list, and what belongs to a dimension *)

Lemma index_of_Some (d : string) (l : list string) (i : nat) :
  xr.index_of d l = Some i -> l !! i = Some d.
Proof.
  unfold xr.index_of. intros H. apply fmap_Some in H as ([j x] & Hf & ->).
  apply list_find_Some in Hf as (Hl & -> & _). exact Hl.
Qed.

Lemma index_of_lookup (d : string) (l : list string) (i : nat) :
  NoDup l -> l !! i = Some d -> xr.index_of d l = Some i.
Proof.
  intros Hnd Hi. unfold xr.index_of.
  destruct (list_find_elem_of (fun x => x = d) l d) as [[j x] Hf];
    [by apply (list_elem_of_lookup_2 _ i)|reflexivity|].
  rewrite Hf. simpl. f_equal.
  apply list_find_Some in Hf as (Hl & -> & _).
  apply (NoDup_lookup l j i d Hnd Hl Hi).
Qed.

Section Axes.
Context (dims : list string) (Hnd : NoDup dims).

Lemma entry_lookup (l : list nat) (i : nat) (d : string) :
  dims !! i = Some d -> xr.entry dims l d = default 0 (l !! i).
Proof.
  intros Hi. unfold xr.entry. rewrite (index_of_lookup d dims i Hnd Hi). reflexivity.
Qed.

Lemma entry_fmap (l : list nat) :
  length l = length dims -> xr.entry dims l <$> dims = l.
Proof.
  intros Hlen. apply list_eq. intros i. rewrite list_lookup_fmap.
  destruct (dims !! i) as [d|] eqn:Hd; simpl.
  - rewrite (entry_lookup l i d Hd).
    destruct (lookup_lt_is_Some_2 l i) as [x Hx].
    { rewrite Hlen. apply lookup_lt_Some in Hd. exact Hd. }
    rewrite Hx. reflexivity.
  - symmetry. apply lookup_ge_None. rewrite Hlen. apply lookup_ge_None. exact Hd.
Qed.

Lemma omap_axes (l : list nat) (new : list string) :
  length l = length dims -> (forall d, d ∈ new -> d ∈ dims) ->
  omap (fun ax => l !! ax) (omap (fun d => xr.index_of d dims) new)
  = xr.entry dims l <$> new.
Proof.
  intros Hlen. induction new as [|d new IH]; intros Hsub; [reflexivity|].
  destruct (list_elem_of_lookup_1 dims d) as [i Hi]; [apply Hsub; left|].
  pose proof (index_of_lookup d dims i Hnd Hi) as Hidx.
  destruct (lookup_lt_is_Some_2 l i) as [x Hx].
  { rewrite Hlen. apply lookup_lt_Some in Hi. exact Hi. }
  csimpl. rewrite Hidx. csimpl. rewrite Hx.
  rewrite IH by (intros d' Hd'; apply Hsub; right; exact Hd').
  f_equal. unfold xr.entry. rewrite Hidx. simpl. rewrite Hx. reflexivity.
Qed.

End Axes.

(** *** A sum and a bound over the dimensions, in any order *)

Lemma offset_fmap (f g : string -> nat) (l : list string) :
  xr.offset (f <$> l) (g <$> l) = sum_list_with (fun d => f d * g d) l.
Proof.
  induction l as [|d l IH]; [reflexivity|].
  csimpl. rewrite offset_cons, IH. reflexivity.
Qed.

Lemma offset_permutation (f g : string -> nat) (l k : list string) :
  l ≡ₚ k -> xr.offset (f <$> l) (g <$> l) = xr.offset (f <$> k) (g <$> k).
Proof. intros H. rewrite !offset_fmap. by rewrite H. Qed.

Lemma Forall2_fmap_same (f g : string -> nat) (l : list string) :
  Forall2 lt (f <$> l) (g <$> l) <-> Forall (fun d => f d < g d) l.
Proof.
  rewrite Forall2_fmap. split.
  - intros H. apply Forall_lookup. intros i d Hd.
    destruct (Forall2_lookup_l _ _ _ _ _ H Hd) as (d' & Hd' & Hlt).
    rewrite Hd in Hd'. injection Hd' as <-. exact Hlt.
  - intros H. apply Forall_Forall2_diag. exact H.
Qed.

Lemma bounds_permutation (f g : string -> nat) (l k : list string) :
  l ≡ₚ k ->
  Forall2 lt (f <$> l) (g <$> l) <-> Forall2 lt (f <$> k) (g <$> k).
Proof. intros H. rewrite !Forall2_fmap_same. by rewrite H. Qed.


(** *** The cells after [np.transpose] *)

Section Moved.
Context {A : Type} (dims new : list string) (shp : list nat) (xs : list A).
Hypothesis Hnd : NoDup dims.
Hypothesis Hperm : new ≡ₚ dims.
Hypothesis Hshp : length shp = length dims.
Hypothesis Hxs : length xs = xr.product shp.

Lemma new_subset (d : string) : d ∈ new -> d ∈ dims.
Proof. intros H. by rewrite <- Hperm. Qed.

Lemma new_NoDup : NoDup new.
Proof. by rewrite Hperm. Qed.

Lemma moved_pos (pos : string -> nat) :
  (Forall2 lt (pos <$> new) (xr.entry dims shp <$> new) <-> Forall2 lt (pos <$> dims) shp) /\
  xr.offset (pos <$> new) (xr.entry dims (xr.strides shp) <$> new)
  = xr.offset (pos <$> dims) (xr.strides shp).
Proof.
  split.
  - rewrite (bounds_permutation pos (xr.entry dims shp) new dims Hperm).
    rewrite (entry_fmap dims Hnd shp Hshp). reflexivity.
  - rewrite (offset_permutation pos (xr.entry dims (xr.strides shp)) new dims Hperm).
    rewrite (entry_fmap dims Hnd (xr.strides shp)); [reflexivity|].
    rewrite length_strides. exact Hshp.
Qed.

Lemma moved_index (u : list nat) :
  Forall2 lt u (xr.entry dims shp <$> new) ->
  xr.offset u (xr.entry dims (xr.strides shp) <$> new) < xr.product shp.
Proof.
  intros Hu.
  assert (length u = length new) as Hlen.
  { apply Forall2_length in Hu. rewrite length_fmap in Hu. exact Hu. }
  rewrite <- (entry_fmap new new_NoDup u Hlen) in Hu |- *.
  destruct (moved_pos (xr.entry new u)) as [Hb ->].
  apply offset_lt. apply Hb. exact Hu.
Qed.

Lemma transpose_flat_lookup (pos : string -> nat) :
  Forall2 lt (pos <$> dims) shp ->
  xr.transpose_flat shp (omap (fun d => xr.index_of d dims) new) xs
    !! xr.offset (pos <$> new) (xr.strides (xr.entry dims shp <$> new))
  = xs !! xr.offset (pos <$> dims) (xr.strides shp).
Proof.
  intros Hpos. unfold xr.transpose_flat. cbv zeta.
  rewrite (omap_axes dims Hnd shp new Hshp new_subset).
  rewrite (omap_axes dims Hnd (xr.strides shp) new)
    by (rewrite ?length_strides; auto using new_subset).
  destruct (moved_pos pos) as [Hb Ho].
  apply Hb in Hpos.
  rewrite lookup_omap_seq.
  - rewrite (unravel_offset _ _ Hpos). rewrite Ho. reflexivity.
  - intros k Hk. apply lookup_lt_is_Some. rewrite Hxs.
    apply moved_index. apply unravel_lt. exact Hk.
  - apply offset_lt. exact Hpos.
Qed.

End Moved.

(** [transpose] keeps every labelled cell: the array after it has the
    requested order of dimensions, and at every position, given by
    dimension, the cell it had. *)
Lemma transpose_var_isel (v : xr.DataArray) (new : list string) (pos : string -> nat) :
  well_formed v -> new ≡ₚ xr.dims v ->
  xr.isel (xr.transpose_var new v) pos = xr.isel v pos.
Proof.
  intros (Hnd & Hshp & Hsize) Hperm.
  unfold xr.isel, xr.transpose_var. cbn [xr.dims xr.shape xr.data].
  rewrite (omap_axes (xr.dims v) Hnd (xr.shape v) new Hshp)
    by (intros d Hd; by rewrite <- Hperm).
  destruct (moved_pos (xr.dims v) new (xr.shape v) Hnd Hperm Hshp pos) as [Hb _].
  destruct (bool_decide (Forall2 _ (pos <$> xr.dims v) _)) eqn:Hin.
  - apply bool_decide_eq_true in Hin.
    rewrite bool_decide_eq_true_2 by (apply Hb; exact Hin).
    destruct (xr.data v) as [xs|xs|xs|xs]; simpl in Hsize; simpl;
      rewrite (transpose_flat_lookup (xr.dims v) new (xr.shape v) xs Hnd Hperm Hshp Hsize pos Hin);
      reflexivity.
  - apply bool_decide_eq_false in Hin.
    rewrite bool_decide_eq_false_2; [reflexivity|].
    intros H. apply Hin. apply Hb. exact H.
Qed.

End Transposition.

(** What line 89 does to one variable of the dataset. *)
Lemma transpose_lookup (new_dims : list string) (ds ds' : xr.Dataset)
    (n : string) (v : xr.DataArray) :
  xr.transpose new_dims ds = Ok ds' -> ds !! n = Some v ->
  NoDup new_dims -> NoDup (xr.dims v) ->
  ds' !! n = Some (xr.transpose_var (filter (fun d => d ∈ xr.dims v) new_dims) v) /\
  filter (fun d => d ∈ xr.dims v) new_dims ≡ₚ xr.dims v.
Proof.
  intros H Hv Hnew Hnd. split.
  - rewrite (transpose_Ok _ _ _ H), lookup_fmap, Hv. reflexivity.
  - unfold xr.transpose in H.
    destruct (bool_decide (Forall _ new_dims)); [|discriminate H]. simpl in H.
    destruct (bool_decide (map_Forall _ ds)) eqn:Hall; [|discriminate H].
    apply bool_decide_eq_true in Hall. specialize (Hall n v Hv). simpl in Hall.
    apply NoDup_Permutation; [by apply NoDup_filter|exact Hnd|].
    intros d. rewrite list_elem_of_filter. split; [tauto|].
    intros Hd. split; [exact Hd|].
    apply (proj1 (Forall_forall _ _) Hall d Hd).
Qed.

(** Renaming a dimension moves no cell. *)
Lemma rename_dims_isel (k w : string) (v : xr.DataArray) (pos : string -> nat) :
  xr.isel (xr.rename_dims k w v) pos = xr.isel v (fun d => pos (xr.rename_dim k w d)).
Proof.
  unfold xr.isel, xr.rename_dims. cbn [xr.dims xr.shape xr.data].
  rewrite <- list_fmap_compose. reflexivity.
Qed.

Lemma rename_dims_well_formed (k w : string) (v : xr.DataArray) :
  well_formed v -> w ∉ xr.dims v -> well_formed (xr.rename_dims k w v).
Proof.
  intros (Hnd & Hshp & Hsize) Hw. unfold well_formed, xr.rename_dims.
  cbn [xr.dims xr.shape xr.data]. rewrite length_fmap.
  split; [|split; assumption].
  apply NoDup_fmap_2_strong; [|exact Hnd].
  intros x y Hx Hy. unfold xr.rename_dim.
  destruct (decide (x = k)) as [->|], (decide (y = k)) as [->|]; intros E;
    congruence.
Qed.

Lemma canonical_NoDup : NoDup canonical_dims.
Proof. apply (bool_decide_unpack (NoDup canonical_dims)). reflexivity. Qed.

(** C8: after the merge the coordinate the source calls "day" is called
    "time", no variable and no dimension is called "day" any more, and
    every variable carries its dimensions in the order (time, lat, lon),
    with its cells moved accordingly: at every position, given by
    dimension, a variable holds after line 89 the cell it held there
    before, whatever the order in which the source delivered the axes.
    For the variables that no other step writes this is the cell of the
    merged dataset; for the two temperature variables it is the cell the
    normalisation left, which the consistency step then may exchange
    with the other temperature at the same position.  This is the
    dataset the regridding step receives. *)
Theorem harmonize_layout (dlist : list xr.Dataset) (m ds : xr.Dataset) :
  xr.merge dlist = Ok m ->
  harmonize dlist = Ok ds ->
  ds !! "day"%string = None /\
  (forall n v, ds !! n = Some v ->
     ("day"%string ∉ xr.dims v) /\
     sublist (xr.dims v) canonical_dims /\
     (length (xr.dims v) = 3%nat -> xr.dims v = canonical_dims)) /\
  (forall c n, m !! "day"%string = Some c ->
     xr.dims c = ["day"%string] -> xr.shape c = [n] -> xr.size (xr.data c) = n ->
     ds !! "time"%string =
     Some (xr.mkDataArray ["time"%string] [n] (xr.data c) (xr.attrs c))) /\
  (forall n v, m !! n = Some v ->
     n ≠ "tmmn"%string -> n ≠ "tmmx"%string ->
     well_formed v -> "time"%string ∉ xr.dims v ->
     exists v', ds !! xr.rename_dim "day" "time" n = Some v' /\
       xr.attrs v' = xr.attrs v /\
       forall pos, xr.isel v' pos
                   = xr.isel v (fun d => pos (xr.rename_dim "day" "time" d))) /\
  (exists ds1 ds2 ds3,
     xr.rename "day" "time" m = Ok ds1 /\ normalize ds1 = Ok ds2 /\
     xr.transpose canonical_dims ds2 = Ok ds3 /\ enforce ds3 = Ok ds /\
     forall n v2, ds2 !! n = Some v2 -> well_formed v2 ->
       exists v3, ds3 !! n = Some v3 /\
         xr.dims v3 = filter (fun d => d ∈ xr.dims v2) canonical_dims /\
         forall pos, xr.isel v3 pos = xr.isel v2 pos) /\
  (forall cdo config_dict model w w1 kwargs,
     fetch varnames w = (Ok dlist, w1) ->
     forecast_window config_dict ds = Ok kwargs ->
     per_model cdo config_dict model w =
     regrid cdo config_dict model ds
       (set_fs w1 (<[new_Config config_dict :=
                      ConfigFile (old_Config config_dict) kwargs]> (fs w1)))).
Proof.
  intros Hm Hh. pose proof Hh as Hh0. unfold harmonize in Hh. rewrite Hm in Hh. simpl in Hh.
  destruct (xr.rename "day" "time" m) as [ds1|] eqn:H1; simpl in Hh; [|discriminate].
  destruct (normalize ds1) as [ds2|] eqn:H2; simpl in Hh; [|discriminate].
  destruct (xr.transpose ["time"; "lat"; "lon"]%string ds2) as [ds3|] eqn:H3;
    simpl in Hh; [|discriminate].
  destruct (rename_day_time _ _ H1) as (R1 & R2 & R3 & R4).
  destruct (normalize_layout _ _ H2) as [N1 N2].
  destruct (enforce_layout _ _ Hh) as [E1 E2].
  pose proof (transpose_Ok _ _ _ H3) as T.
  assert (Hstep : forall n v2, ds2 !! n = Some v2 -> well_formed v2 ->
            exists v3, ds3 !! n = Some v3 /\
              xr.dims v3 = filter (fun d => d ∈ xr.dims v2) canonical_dims /\
              xr.attrs v3 = xr.attrs v2 /\
              forall pos, xr.isel v3 pos = xr.isel v2 pos).
  { intros n v2 Hv2 Hwf.
    destruct (transpose_lookup _ _ _ n v2 H3 Hv2 canonical_NoDup (proj1 Hwf))
      as [Hv3 Hperm].
    eexists. split; [exact Hv3|]. split; [reflexivity|]. split; [reflexivity|].
    intros pos. apply transpose_var_isel; assumption. }
  split; [|split; [|split; [|split; [|split]]]].
  - rewrite E2 by discriminate. rewrite T, lookup_fmap.
    rewrite N2 by discriminate. rewrite R1. reflexivity.
  - intros n v Hv.
    pose proof (E1 n) as En. rewrite Hv in En. simpl in En.
    destruct (ds3 !! n) as [v3|] eqn:Hv3; [|discriminate].
    injection En as En. rewrite En.
    rewrite T, lookup_fmap in Hv3.
    destruct (ds2 !! n) as [v2|] eqn:Hv2; [|discriminate].
    injection Hv3 as <-. simpl.
    split; [|split].
    + intros Hin. apply list_elem_of_filter in Hin. destruct Hin as [_ Hin].
      apply canonical_no_day. exact Hin.
    + apply sublist_filter.
    + apply (filter_canonical_full (fun d => d ∈ xr.dims v2)).
  - intros c n Hc Hd Hs Hsz.
    rewrite E2 by discriminate. rewrite T, lookup_fmap.
    rewrite N2 by discriminate. rewrite (R3 c Hc). simpl. f_equal.
    rewrite Hd. simpl.
    assert (F : filter (fun d : string => d ∈ [xr.rename_dim "day" "time" "day"])
                  ["time"; "lat"; "lon"]%string = ["time"%string])
      by by_vm.
    rewrite F.
    rewrite (transpose_var_1d "time" n).
    + unfold xr.rename_dims. rewrite Hd, Hs. reflexivity.
    + simpl. rewrite Hd. reflexivity.
    + exact Hs.
    + exact Hsz.
  - intros n v Hv Hn1 Hn2 Hwf Htime.
    pose proof (rename_fresh _ _ _ _ H1 ltac:(discriminate)) as Hfresh.
    assert (n ≠ "time"%string) as Hnt by (intros ->; congruence).
    set (n' := xr.rename_dim "day" "time" n).
    assert (ds1 !! n' = Some (xr.rename_dims "day" "time" v)) as Hv1.
    { unfold n', xr.rename_dim. destruct (decide (n = "day"%string)) as [->|Hnd].
      - apply R3. exact Hv.
      - rewrite R4 by assumption. rewrite Hv. reflexivity. }
    assert (n' ≠ "tmmn"%string /\ n' ≠ "tmmx"%string) as [Hn1' Hn2'].
    { unfold n', xr.rename_dim. destruct (decide (n = "day"%string)); split;
        assumption || discriminate. }
    rewrite <- N2 in Hv1 by assumption.
    destruct (Hstep n' _ Hv1 (rename_dims_well_formed _ _ _ Hwf Htime))
      as (v3 & Hv3 & _ & Ha & Hsel).
    exists v3. split; [rewrite E2 by assumption; exact Hv3|].
    split; [exact Ha|].
    intros pos. rewrite Hsel. apply rename_dims_isel.
  - exists ds1, ds2, ds3. repeat split; try assumption.
    intros n v2 Hv2 Hwf.
    destruct (Hstep n v2 Hv2 Hwf) as (v3 & Hv3 & Hd & _ & Hsel).
    exists v3. repeat split; assumption.
  - intros cdo config_dict model w w1 kwargs Hf Hw.
    unfold per_model, mbind, IO_bind, lift, replace_var_pythonic_config.
    rewrite Hf, Hh0, Hw. reflexivity.
Qed.

(** ** The statements at work on sample data *)




(** The scenario of the specification: (min 10, max 5) becomes
    (min 5, max 10); (min 10, max missing) stays. *)
Example enforce_scenario :
  let ds := Sample.temperatures "degC" [F64.of_Z 10; F64.of_Z 10]
              [F64.of_Z 5; fill_value] in
  (cell (Sample.after enforce ds) "tmmn") <$> [0; 1]%nat
    = [Some (F64.of_Z 5); Some (F64.of_Z 10)] /\
  (cell (Sample.after enforce ds) "tmmx") <$> [0; 1]%nat
    = [Some (F64.of_Z 10); Some fill_value].
Proof. split; by_vm. Qed.

Lemma enforce_idempotent_witness :
  enforce Sample.crossed = Ok (Sample.after enforce Sample.crossed) /\
  enforce (Sample.after enforce Sample.crossed)
  = Ok (Sample.after enforce Sample.crossed).
Proof.
  split; [by_vm|].
  apply (enforce_idempotent Sample.crossed). by_vm.
Defined.

(** Kelvin and Celsius sources take the fill value below the threshold. *)
Example kelvin_fill_below_threshold :
  F64.lt (cf_units.convert1 cf_units.kelvin cf_units.celsius fill_value) threshold = true.
Proof. by_vm. Qed.

Example celsius_fill_below_threshold :
  F64.lt (cf_units.convert1 cf_units.celsius cf_units.celsius fill_value) threshold = true.
Proof. by_vm. Qed.





(** A grid that is in degC already is not touched: a negative zero stays
    a negative zero. *)
Example celsius_grid_untouched :
  cell (Sample.after normalize Scenario.celsius_zeros) "tmmn" 0 = Some (S754_zero true).
Proof. by_vm. Qed.




(** What the sample server holds for each variable code. *)
Lemma sample_server (var name : string) (ds : xr.Dataset) :
  (var, name) ∈ varnames ->
  remote Sample.world !! url var = Some ds ->
  ds !! "tmmx"%string = None /\ ds !! "tmmn"%string = None.
Proof.
  intros Hin. unfold varnames in Hin.
  repeat (apply elem_of_cons in Hin;
          destruct Hin as [Hin|Hin];
          [injection Hin as -> ->;
           match goal with
           | |- remote _ !! url ?v = _ -> _ =>
               let r := eval vm_compute in (remote Sample.world !! url v) in
               assert (E : remote Sample.world !! url v = r) by by_vm;
               rewrite E; clear E
           end;
           intros [= <-]; split; by_vm|]).
  apply elem_of_nil in Hin. destruct Hin.
Qed.

Lemma fetch_retags_temperatures_witness :
  xr.merge Sample.fetched = Ok Sample.merged /\
  Sample.merged !! "tmmx"%string = Some (Sample.grid "K" Sample.tmax_K) /\
  Sample.merged !! "tmmn"%string = Some (Sample.grid "K" Sample.tmin_K).
Proof.
  split; [by_vm|].
  destruct (fetch_retags_temperatures Sample.world Sample.world Sample.fetched
              (Sample.field "air_temperature" "K" Sample.tmax_K)
              (Sample.field "air_temperature" "K" Sample.tmin_K)
              Sample.merged
              (Sample.grid "K" Sample.tmax_K) (Sample.grid "K" Sample.tmin_K))
    as (_ & Hx & Hn).
  - by_vm.
  - by_vm.
  - by_vm.
  - by_vm.
  - by_vm.
  - exact sample_server.
  - by_vm.
  - split; [exact Hx|exact Hn].
Defined.

Lemma harmonize_layout_witness :
  harmonize Scenario.fetched_lon_first = Ok Scenario.harmonized_lon_first /\
  Scenario.harmonized_lon_first !! "day"%string = None /\
  (exists v', Scenario.harmonized_lon_first !! "wind_speed"%string = Some v' /\
     xr.attrs v' = {[ "units"%string := "m/s"%string ]} /\
     forall pos, xr.isel v' pos
       = xr.isel (Scenario.grid_lon_first "m/s" Sample.ones)
           (fun d => pos (xr.rename_dim "day" "time" d))) /\
  Scenario.harmonized_lon_first !! "wind_speed"%string =
  Some (xr.mkDataArray canonical_dims [2; 1; 2]%nat
          (xr.Floats (F64.of_Z <$> [1; 3; 2; 4]))
          {[ "units"%string := "m/s"%string ]}).
Proof.
  split; [by_vm|].
  destruct (harmonize_layout Scenario.fetched_lon_first Scenario.merged_lon_first
              Scenario.harmonized_lon_first)
    as (Hday & _ & _ & Hcells & _).
  - by_vm.
  - by_vm.
  - split; [exact Hday|]. split; [|by_vm].
    apply (Hcells "wind_speed"%string (Scenario.grid_lon_first "m/s" Sample.ones)).
    + by_vm.
    + discriminate.
    + discriminate.
    + split; [|split; reflexivity].
      apply (bool_decide_unpack (NoDup ["lon"; "lat"; "day"]%string)). reflexivity.
    + apply (bool_decide_unpack ("time"%string ∉ ["lon"; "lat"; "day"]%string)).
      reflexivity.
Defined.

(** The same fields delivered in the order (day, lat, lon) are not
    moved. *)
Example harmonized_sample_time :
  Sample.harmonized !! "time"%string =
  Some (xr.mkDataArray ["time"%string] [2%nat]
          (xr.Datetimes [Sample.t0 - pd.ns_per_day; Sample.t0 + 43200 * 10 ^ 9]) ∅).
Proof. by_vm. Qed.

(** The harmonised sample: the temperature grids have three dimensions,
    in the canonical order. *)
Example harmonized_sample_dims :
  xr.dims <$> Sample.harmonized !! "tmmn"%string = Some canonical_dims /\
  xr.dims <$> Sample.harmonized !! "tmmx"%string = Some canonical_dims.
Proof. split; by_vm. Qed.

(** * The run as a whole: errors, frames, round trips *)

(** ** The fetch loop reads and does not write *)

Lemma fetch_one_world (var name : string) (w : World) :
  (fetch_one var name w).2 = w.
Proof.
  unfold fetch_one, open_dataset, mbind, IO_bind, lift, mret, IO_ret.
  destruct (remote w !! url var); simpl; [|done].
  destruct (decide _); done.
Qed.

Lemma fetch_world (items : list (string * string)) (w : World) :
  (fetch items w).2 = w.
Proof.
  induction items as [|[var name] rest IH]; [done|].
  rewrite fetch_cons.
  pose proof (fetch_one_world var name w) as H1.
  destruct (fetch_one var name w) as [[xds|e] w1]; simpl in H1; subst w1; [|done].
  destruct (fetch rest w) as [[dl|e] w2]; simpl in IH; subst w2; done.
Qed.

Lemma fetch_one_delivered (var name : string) (w : World) :
  (fetch_one var name w).1 =
  match remote w !! url var with
  | Some xds => delivered var name xds
  | None => Raise (OSError (url var))
  end.
Proof.
  unfold fetch_one, open_dataset, mbind, IO_bind, lift, mret, IO_ret, delivered.
  destruct (remote w !! url var); simpl; [|done].
  destruct (decide _); done.
Qed.

(** X1: the fetch loop succeeds only when every listed file is on the
    server; it then returns one dataset per entry, in the order of the
    entries, each as the server holds it up to the renaming of
    [air_temperature]; and it never changes the world. *)
Theorem fetch_in_order (items : list (string * string)) (w w' : World)
    (dlist : list xr.Dataset) :
  fetch items w = (Ok dlist, w') ->
  w' = w /\ length dlist = length items /\
  forall (i : nat) var name, items !! i = Some (var, name) ->
    exists xds d, remote w !! url var = Some xds /\
      delivered var name xds = Ok d /\ dlist !! i = Some d.
Proof.
  intros H.
  assert (w' = w) as ->.
  { pose proof (fetch_world items w) as Hw. rewrite H in Hw. done. }
  split; [done|].
  revert dlist H. induction items as [|[var name] rest IH]; intros dlist H.
  { injection H as <-. split; [done|]. intros i ? ? Hi. done. }
  rewrite fetch_cons in H.
  pose proof (fetch_one_world var name w) as H1.
  pose proof (fetch_one_delivered var name w) as H2.
  destruct (fetch_one var name w) as [[xds|e] w1]; simpl in H1, H2; subst w1; [|done].
  pose proof (fetch_world rest w) as H3.
  destruct (fetch rest w) as [[dl|e] w2] eqn:Hrest; simpl in H3; subst w2; [|done].
  injection H as <-.
  destruct (IH dl eq_refl) as [Hlen Hget].
  split; [simpl; congruence|].
  intros [|i] var' name' Hi; simpl in Hi.
  - injection Hi as <- <-.
    destruct (remote w !! url var) as [x|]; [|done].
    exists x, xds. done.
  - apply Hget in Hi. exact Hi.
Qed.

Lemma fetch_missing (items : list (string * string)) (w : World) (var name : string) :
  (var, name) ∈ items -> remote w !! url var = None ->
  exists e, fetch items w = (Raise e, w).
Proof.
  intros Hin Hnone.
  pose proof (fetch_world items w) as Hw.
  destruct (fetch items w) as [[dlist|e] w'] eqn:H; simpl in Hw; subst w';
    [exfalso|by exists e].
  revert dlist H. induction items as [|[var' name'] rest IH]; intros dlist H.
  { by apply elem_of_nil in Hin. }
  rewrite fetch_cons in H.
  pose proof (fetch_one_world var' name' w) as H1.
  pose proof (fetch_one_delivered var' name' w) as H2.
  destruct (fetch_one var' name' w) as [[xds|e] w1]; simpl in H1, H2; subst w1; [|done].
  pose proof (fetch_world rest w) as H3.
  destruct (fetch rest w) as [[dl|e] w2] eqn:Hrest; simpl in H3; subst w2; [|done].
  apply elem_of_cons in Hin as [Heq | Hin].
  - injection Heq as <- <-. rewrite Hnone in H2. done.
  - by apply (IH Hin dl).
Qed.

(** ** Nothing is written before the window is known *)

Lemma main_per_model (cdo : Cdo) (config_dict : Config) (w : World) :
  main cdo config_dict w = per_model cdo config_dict "CFSv2" w.
Proof.
  unfold main, modelnames, for_models, mbind, IO_bind, mret, IO_ret.
  destruct (per_model cdo config_dict "CFSv2" w) as [[[]|e] w']; done.
Qed.

Lemma per_model_steps (cdo : Cdo) (config_dict : Config) (model : string) (w : World) :
  per_model cdo config_dict model w =
  match (fetch varnames w).1 with
  | Raise e => (Raise e, w)
  | Ok dlist =>
      match harmonize dlist with
      | Raise e => (Raise e, w)
      | Ok merge_ds =>
          match forecast_window config_dict merge_ds with
          | Raise e => (Raise e, w)
          | Ok kwargs =>
              regrid cdo config_dict model merge_ds
                (set_fs w (<[new_Config config_dict :=
                              ConfigFile (old_Config config_dict) kwargs]> (fs w)))
          end
      end
  end.
Proof.
  unfold per_model, mbind, IO_bind, lift.
  pose proof (fetch_world varnames w) as Hw.
  destruct (fetch varnames w) as [[dlist|e] w']; simpl in Hw; subst w'; [|done].
  simpl. destruct (harmonize dlist) as [ds|e]; [|done].
  destruct (forecast_window config_dict ds) as [kw|e]; [|done].
  unfold replace_var_pythonic_config. done.
Qed.

(** X2: [main] writes nothing unless the fetch, the harmonisation and the
    window all succeed: when one of them raises, [main] raises the same
    exception and the files are those it found. *)
Theorem main_clean_abort (cdo : Cdo) (config_dict : Config) (w : World) (e : exn) :
  (fetch varnames w).1 = Raise e \/
  (exists dlist, (fetch varnames w).1 = Ok dlist /\
     (harmonize dlist = Raise e \/
      exists merge_ds, harmonize dlist = Ok merge_ds /\
        forecast_window config_dict merge_ds = Raise e)) ->
  main cdo config_dict w = (Raise e, w).
Proof.
  intros H. rewrite main_per_model, per_model_steps.
  destruct H as [-> | (dlist & -> & [-> | (ds & -> & ->)])]; done.
Qed.

Lemma main_clean_abort_witness :
  main Sample.cdo_ok (mkConfig "" "" "" "" "" "" "2023-02-29" "") Sample.world
  = (Raise (ValueError "day is out of range for month"), Sample.world).
Proof.
  apply main_clean_abort. right. exists Sample.fetched. split; [by_vm|].
  right. exists Sample.harmonized. split; by_vm.
Defined.

(** X3: when one of the seven files is missing on the server, [main]
    raises and leaves every file as it was. *)
Theorem main_missing_file (cdo : Cdo) (config_dict : Config) (w : World)
    (var name : string) :
  (var, name) ∈ varnames -> remote w !! url var = None ->
  exists e, main cdo config_dict w = (Raise e, w).
Proof.
  intros Hin Hnone.
  destruct (fetch_missing varnames w var name Hin Hnone) as [e He].
  exists e. rewrite main_per_model, per_model_steps, He. done.
Qed.

Lemma fetch_in_order_witness :
  Sample.world = Sample.world /\ length Sample.fetched = length varnames /\
  forall (i : nat) var name, varnames !! i = Some (var, name) ->
    exists xds d, remote Sample.world !! url var = Some xds /\
      delivered var name xds = Ok d /\ Sample.fetched !! i = Some d.
Proof.
  apply (fetch_in_order varnames Sample.world Sample.world Sample.fetched).
  by_vm.
Defined.

Lemma main_missing_file_witness :
  exists e, main Sample.cdo_ok Sample.config Scenario.offline = (Raise e, Scenario.offline).
Proof.
  apply (main_missing_file _ _ _ "pr"%string "precipitation_amount"%string).
  - unfold varnames. set_solver.
  - reflexivity.
Defined.

(** ** Paths and addresses *)

Section Paths.

Lemma chars_app (a b : string) :
  String.list_ascii_of_string (a +:+ b) = String.list_ascii_of_string a ++ String.list_ascii_of_string b.
Proof.
  induction a as [|c a IH]; [done|].
  change (String c a +:+ b) with (String c (a +:+ b)). simpl. by rewrite IH.
Qed.

Lemma chars_inj (a b : string) :
  String.list_ascii_of_string a = String.list_ascii_of_string b -> a = b.
Proof.
  intros H. rewrite <- (String.string_of_list_ascii_of_string a),
    <- (String.string_of_list_ascii_of_string b). by rewrite H.
Qed.

Lemma append_inv_tail (a b s : string) : a +:+ s = b +:+ s -> a = b.
Proof.
  intros H. apply chars_inj. apply (f_equal String.list_ascii_of_string) in H.
  rewrite !chars_app in H. by apply app_inv_tail in H.
Qed.

(** [os.path.join(a, b)] ends with [b]. *)
Lemma path_join_suffix (a b : string) : exists p, path_join a b = p +:+ b.
Proof.
  unfold path_join. destruct (starts_with_slash b).
  - by exists EmptyString.
  - destruct (_ || _).
    + by exists a.
    + exists (a +:+ "/"). apply chars_inj. rewrite !chars_app. by rewrite <- app_assoc.
Qed.

(** A name cannot end with itself followed by [.nc] and, at the same
    place, be preceded by [med_temp_]; the strings are read from their
    ends. *)
Lemma no_overlap (n : nat) (r X Y : list ascii) :
  (length r <= n)%nat ->
  r ++ String.list_ascii_of_string "_pmet_dem" ++ X
  = String.list_ascii_of_string "cn." ++ r ++ Y -> False.
Proof.
  revert r X Y. induction n as [|n IH]; intros r X Y Hlen H.
  - destruct r; [|simpl in Hlen; lia]. simpl in H. discriminate.
  - destruct r as [|a [|b [|c r]]]; simpl in H; try discriminate.
    injection H as -> -> -> H.
    apply (IH r X Y); [simpl in Hlen; lia|]. exact H.
Qed.

Lemma staging_ne_output (config_dict : Config) (model : string) :
  temporary_path config_dict model ≠ outfile_path config_dict model.
Proof.
  unfold temporary_path, outfile_path.
  destruct (path_join_suffix (TempDir config_dict) ("med_temp_" +:+ model)) as [p ->].
  destruct (path_join_suffix (Met_Loc config_dict) (model +:+ ".nc")) as [q ->].
  intros H. apply (f_equal String.list_ascii_of_string) in H.
  rewrite !chars_app in H. apply (f_equal (@rev ascii)) in H.
  rewrite !rev_app_distr in H.
  apply (no_overlap (length (rev (String.list_ascii_of_string model)))
           (rev (String.list_ascii_of_string model))
           (rev (String.list_ascii_of_string p)) (rev (String.list_ascii_of_string q))); [lia|].
  rewrite <- !app_assoc in H. exact H.
Qed.

End Paths.

(** X4: whatever the configured directories and whatever the name of the
    model, the staging file and the output file are two different paths:
    writing the staged dataset never overwrites an output, and removing
    the staging file never removes one. *)
Theorem staging_is_not_output (config_dict : Config) (model : string) :
  temporary_path config_dict model ≠ outfile_path config_dict model.
Proof. apply staging_ne_output. Qed.

Lemma staging_is_not_output_witness :
  temporary_path Sample.config "CFSv2" ≠ outfile_path Sample.config "CFSv2" /\
  temporary_path Sample.config "CFSv2" = "/scratch/med_temp_CFSv2"%string /\
  outfile_path Sample.config "CFSv2" = "/data/forecast/CFSv2.nc"%string.
Proof.
  split; [apply staging_is_not_output|]. split; reflexivity.
Defined.

(** X5: the seven addresses are one per variable: two codes give the
    same address only when they are the same code. *)
Theorem url_injective (var var' : string) : url var = url var' -> var = var'.
Proof.
  unfold url. intros H.
  do 4 apply String.app_inj in H.
  by apply append_inv_tail in H.
Qed.

Lemma url_injective_witness :
  url "tmmx" = url "tmmx" /\ "tmmx"%string = "tmmx"%string.
Proof. split; [reflexivity|]. apply url_injective. reflexivity. Defined.

(** ** The regrid step after a successful engine run *)

(** X6: when the engine succeeds and leaves the staging file in place,
    the regrid step succeeds, the staging file is removed and every other
    file, the output among them, is as the engine left it. *)
Theorem regrid_success (cdo : Cdo) (config_dict : Config) (model : string)
    (merge_ds : xr.Dataset) (w : World) (f : gmap string File) :
  remapcon cdo (GridFile config_dict) (temporary_path config_dict model)
    (outfile_path config_dict model) (staged config_dict model merge_ds w)
  = (Ok (), f) ->
  is_Some (f !! temporary_path config_dict model) ->
  regrid cdo config_dict model merge_ds w
  = (Ok (), set_fs w (delete (temporary_path config_dict model) f)) /\
  (forall p, p ≠ temporary_path config_dict model ->
     fs (regrid cdo config_dict model merge_ds w).2 !! p = f !! p) /\
  fs (regrid cdo config_dict model merge_ds w).2 !! outfile_path config_dict model
  = f !! outfile_path config_dict model.
Proof.
  intros Hrun [x Hx].
  pose proof (regrid_outcome cdo config_dict model merge_ds w) as H.
  rewrite Hrun in H. rewrite H.
  unfold os_remove. simpl. rewrite Hx. simpl.
  split; [done|]. split.
  - intros p Hp. by rewrite lookup_delete_ne.
  - rewrite lookup_delete_ne; [done|]. apply staging_ne_output.
Qed.

Lemma regrid_success_witness :
  regrid Sample.cdo_ok Sample.config "CFSv2" Sample.harmonized Sample.world
  = (Ok (), set_fs Sample.world
       (delete (temporary_path Sample.config "CFSv2")
          (<[outfile_path Sample.config "CFSv2" := Blob]>
             (staged Sample.config "CFSv2" Sample.harmonized Sample.world)))).
Proof.
  apply regrid_success.
  - reflexivity.
  - exists (NetCDF Sample.harmonized). reflexivity.
Defined.

(** X7: the regrid step itself writes one path, the staging file: with an
    engine that changes no file but its output, every file other than the
    staging file and the output is, after the step, as it was before,
    whether the step returns or raises. *)
Theorem regrid_frame (cdo : Cdo) (config_dict : Config) (model : string)
    (merge_ds : xr.Dataset) (w : World) :
  (forall f p, p ≠ outfile_path config_dict model ->
     (remapcon cdo (GridFile config_dict) (temporary_path config_dict model)
        (outfile_path config_dict model) f).2 !! p = f !! p) ->
  forall p, p ≠ temporary_path config_dict model ->
    p ≠ outfile_path config_dict model ->
    fs (regrid cdo config_dict model merge_ds w).2 !! p = fs w !! p.
Proof.
  intros Hcdo p Hp1 Hp2.
  pose proof (regrid_outcome cdo config_dict model merge_ds w) as H.
  pose proof (Hcdo (staged config_dict model merge_ds w) p Hp2) as Hf.
  destruct (remapcon cdo _ _ _ (staged config_dict model merge_ds w)) as [[[]|e] f];
    simpl in Hf; rewrite H.
  - unfold os_remove. simpl.
    destruct (f !! temporary_path config_dict model); simpl.
    + rewrite lookup_delete_ne by done. rewrite Hf.
      unfold staged. by rewrite lookup_insert_ne.
    + rewrite Hf. unfold staged. by rewrite lookup_insert_ne.
  - simpl. rewrite Hf. unfold staged. by rewrite lookup_insert_ne.
Qed.

Lemma regrid_frame_witness :
  fs (regrid Sample.cdo_ok Sample.config "CFSv2" Sample.harmonized
        (set_fs Sample.world {[ "/run/new.cfg"%string := Blob ]})).2
    !! "/run/new.cfg"%string = Some Blob.
Proof.
  rewrite (regrid_frame Sample.cdo_ok Sample.config "CFSv2" Sample.harmonized
             (set_fs Sample.world {[ "/run/new.cfg"%string := Blob ]})).
  - reflexivity.
  - intros f p Hp. simpl. by rewrite lookup_insert_ne.
  - discriminate.
  - discriminate.
Defined.

(** X8: the staging file is removed without a check that it exists: when
    the engine succeeds but leaves no file at the staging path, the regrid
    step raises FileNotFoundError, with the files as the engine left
    them. *)
Theorem regrid_input_consumed (cdo : Cdo) (config_dict : Config) (model : string)
    (merge_ds : xr.Dataset) (w : World) (f : gmap string File) :
  remapcon cdo (GridFile config_dict) (temporary_path config_dict model)
    (outfile_path config_dict model) (staged config_dict model merge_ds w)
  = (Ok (), f) ->
  f !! temporary_path config_dict model = None ->
  regrid cdo config_dict model merge_ds w
  = (Raise (FileNotFoundError (temporary_path config_dict model)), set_fs w f).
Proof.
  intros Hrun Hx.
  pose proof (regrid_outcome cdo config_dict model merge_ds w) as H.
  rewrite Hrun in H. rewrite H.
  unfold os_remove. simpl. by rewrite Hx.
Qed.

Lemma regrid_input_consumed_witness :
  regrid Scenario.cdo_moving Sample.config "CFSv2" Sample.harmonized Sample.world
  = (Raise (FileNotFoundError "/scratch/med_temp_CFSv2"),
     set_fs Sample.world {[ "/data/forecast/CFSv2.nc"%string := Blob ]}).
Proof.
  apply (regrid_input_consumed Scenario.cdo_moving Sample.config "CFSv2"
           Sample.harmonized Sample.world {[ "/data/forecast/CFSv2.nc"%string := Blob ]}).
  - by_vm.
  - reflexivity.
Defined.

(** ** The consistency step: what it exchanges and what it keeps *)



(** X10: the consistency step writes the cells of "tmmn" and "tmmx" and
    nothing else: every other variable is the same object, and the two
    temperature variables keep their dimensions, shape, attributes and
    number of cells. *)
Theorem enforce_frame (ds ds' : xr.Dataset) :
  enforce ds = Ok ds' ->
  (forall n, n ≠ "tmmn"%string -> n ≠ "tmmx"%string -> ds' !! n = ds !! n) /\
  (forall var, designated var ->
     exists v v', ds !! var = Some v /\ ds' !! var = Some v' /\
       xr.dims v' = xr.dims v /\ xr.shape v' = xr.shape v /\
       xr.attrs v' = xr.attrs v /\ xr.size (xr.data v') = xr.size (xr.data v)).
Proof.
  intros H.
  destruct (enforce_Ok ds ds' H)
    as (vmin & vmax & dmin & dmax & Hmin & Hmax & Hshape & Hsw & ->).
  destruct (swapped_values_size _ _ _ _ Hsw) as [Hs1 Hs2].
  split.
  - intros n H1 H2. by rewrite !lookup_insert_ne.
  - intros var [-> | ->].
    + exists vmin, (xr.set_data vmin dmin).
      rewrite lookup_insert_ne by done. rewrite lookup_insert_eq.
      repeat split; done.
    + exists vmax, (xr.set_data vmax dmax).
      rewrite lookup_insert_eq.
      repeat split; done.
Qed.

Lemma enforce_frame_witness :
  exists v v', Sample.crossed !! "tmmn"%string = Some v /\
    Sample.after enforce Sample.crossed !! "tmmn"%string = Some v' /\
    xr.dims v' = xr.dims v /\ xr.shape v' = xr.shape v /\
    xr.attrs v' = xr.attrs v /\ xr.size (xr.data v') = xr.size (xr.data v).
Proof.
  apply (enforce_frame Sample.crossed (Sample.after enforce Sample.crossed)).
  - by_vm.
  - left. reflexivity.
Defined.



(** ** The normalisation: what it keeps and when it runs *)

(** X13: the repair of line 86 keeps the number of cells, changes no cell
    that is not below -30000, and repairing twice is repairing once. *)
Theorem fix_fill_idempotent (xs : list float) :
  fix_fill (fix_fill xs) = fix_fill xs /\
  length (fix_fill xs) = length xs /\
  forall i x, xs !! i = Some x -> F64.lt x threshold = false ->
    fix_fill xs !! i = Some x.
Proof.
  rewrite !fix_fill_map. split; [|split].
  - rewrite <- list_fmap_compose. apply list_fmap_ext. intros _ x _. simpl.
    destruct (F64.lt x threshold) eqn:Hlt.
    + by rewrite fill_below_threshold.
    + by rewrite Hlt.
  - by rewrite length_fmap.
  - intros i x Hx Hlt. rewrite list_lookup_fmap, Hx. simpl. by rewrite Hlt.
Qed.

(** X14: the normalisation writes the cells and the unit of "tmmn" and
    "tmmx" and nothing else: every other variable is the same object;
    the two temperature variables keep their dimensions, their shape and
    their number of cells, and of their attributes only [units]
    changes. *)
Theorem normalize_frame (ds ds' : xr.Dataset) :
  normalize ds = Ok ds' ->
  (forall n, n ≠ "tmmn"%string -> n ≠ "tmmx"%string -> ds' !! n = ds !! n) /\
  (forall var, designated var ->
     exists v v', ds !! var = Some v /\ ds' !! var = Some v' /\
       xr.dims v' = xr.dims v /\ xr.shape v' = xr.shape v /\
       xr.attrs v' = <["units"%string := "degC"%string]> (xr.attrs v) /\
       xr.size (xr.data v') = xr.size (xr.data v)).
Proof.
  intros H. split.
  - apply (normalize_layout _ _ H).
  - intros var Hvar.
    destruct (normalize_lookup _ _ _ Hvar H) as (v & uin & d' & Hv & _ & Hd & Hv').
    eexists _, _. split; [exact Hv|]. split; [exact Hv'|].
    repeat split. simpl. apply (normalized_values_size _ _ _ Hd).
Qed.

Lemma normalize_frame_witness :
  exists v v', Sample.kelvin_grids !! "tmmx"%string = Some v /\
    Sample.after normalize Sample.kelvin_grids !! "tmmx"%string = Some v' /\
    xr.dims v' = xr.dims v /\ xr.shape v' = xr.shape v /\
    xr.attrs v' = <["units"%string := "degC"%string]> (xr.attrs v) /\
    xr.size (xr.data v') = xr.size (xr.data v).
Proof.
  apply (normalize_frame Sample.kelvin_grids (Sample.after normalize Sample.kelvin_grids)).
  - by_vm.
  - right. reflexivity.
Defined.

(** ** The harmonised dataset *)

Lemma harmonize_steps (dlist : list xr.Dataset) (ds : xr.Dataset) :
  harmonize dlist = Ok ds ->
  exists m ds1 ds2 ds3,
    xr.merge dlist = Ok m /\ xr.rename "day" "time" m = Ok ds1 /\
    normalize ds1 = Ok ds2 /\
    xr.transpose ["time"; "lat"; "lon"]%string ds2 = Ok ds3 /\
    enforce ds3 = Ok ds.
Proof.
  unfold harmonize. intros H.
  destruct (xr.merge dlist) as [m|]; simpl in H; [|done].
  destruct (xr.rename "day" "time" m) as [ds1|] eqn:H1; simpl in H; [|done].
  destruct (normalize ds1) as [ds2|] eqn:H2; simpl in H; [|done].
  destruct (xr.transpose ["time"; "lat"; "lon"]%string ds2) as [ds3|] eqn:H3;
    simpl in H; [|done].
  by exists m, ds1, ds2, ds3.
Qed.













(** X17: the harmonised dataset uses the dimensions time, lat and lon and
    no other: a merged dataset that lacks one of them, or has one more,
    does not pass line 89. *)
Theorem harmonize_dims (dlist : list xr.Dataset) (ds : xr.Dataset) (d : string) :
  harmonize dlist = Ok ds ->
  (exists n v, ds !! n = Some v /\ d ∈ xr.dims v) <-> d ∈ canonical_dims.
Proof.
  intros H.
  destruct (harmonize_steps dlist ds H) as (m & ds1 & ds2 & ds3 & _ & _ & _ & Ht & He).
  destruct (enforce_layout ds3 ds He) as [E1 _].
  pose proof (transpose_Ok _ _ _ Ht) as T.
  split.
  - intros (n & v & Hv & Hd).
    pose proof (E1 n) as En. rewrite Hv in En. simpl in En.
    destruct (ds3 !! n) as [v3|] eqn:Hv3; [|done].
    injection En as En. rewrite En in Hd.
    rewrite T, lookup_fmap in Hv3.
    destruct (ds2 !! n) as [v2|]; [|done].
    injection Hv3 as <-. simpl in Hd.
    apply list_elem_of_filter in Hd as [_ Hd]. exact Hd.
  - intros Hd. unfold xr.transpose in Ht.
    destruct (bool_decide (Forall _ _)) eqn:Hall; [|done].
    apply bool_decide_eq_true in Hall.
    pose proof (proj1 (Forall_forall _ _) Hall d Hd) as Hhas.
    unfold xr.has_dim in Hhas. apply bool_decide_eq_true in Hhas.
    destruct Hhas as (n & v2 & Hv2 & Hin).
    pose proof (E1 n) as En. rewrite T, lookup_fmap, Hv2 in En. simpl in En.
    destruct (ds !! n) as [v|] eqn:Hv; [|done].
    exists n, v. split; [done|].
    injection En as ->. apply list_elem_of_filter. done.
Qed.

Lemma harmonize_dims_witness :
  exists n v, Sample.harmonized !! n = Some v /\ "lat"%string ∈ xr.dims v.
Proof.
  apply (harmonize_dims Sample.fetched Sample.harmonized "lat"%string).
  - by_vm.
  - unfold canonical_dims. set_solver.
Defined.

(** ** Transposition of a field that is already in order *)

Section RowMajor.
Local Open Scope nat_scope.

(** Flat position, to index per axis, and back. *)
Lemma offset_unravel (shp : list nat) (k : nat) :
  xr.offset (xr.unravel shp k) (xr.strides shp) = k mod xr.product shp.
Proof.
  induction shp as [|n rest IH].
  - change (0 = k mod 1). by rewrite Nat.mod_1_r.
  - change (xr.strides (n :: rest)) with (xr.product rest :: xr.strides rest).
    change (xr.unravel (n :: rest) k)
      with (((k / xr.product rest) mod n) :: xr.unravel rest k).
    change (xr.product (n :: rest)) with (n * xr.product rest).
    change (xr.offset (?i :: ?idx) (?s :: ?sts)) with (i * s + xr.offset idx sts).
    rewrite IH. rewrite (Nat.mul_comm n), Nat.Div0.mod_mul_r. lia.
Qed.

Lemma omap_lookup_all {A} (l : list A) :
  omap (fun ax => l !! ax) (seq 0 (length l)) = l.
Proof. apply (omap_lookup_seq (fun k => k) [] l). done. Qed.

Lemma transpose_flat_id {A} (shp : list nat) (xs : list A) :
  length xs = xr.product shp ->
  xr.transpose_flat shp (seq 0 (length shp)) xs = xs.
Proof.
  intros Hlen. unfold xr.transpose_flat.
  cbv zeta.
  assert (omap (fun ax => xr.strides shp !! ax) (seq 0 (length shp)) = xr.strides shp)
    as -> by (rewrite <- (length_strides shp); apply omap_lookup_all).
  rewrite omap_lookup_all. rewrite <- Hlen.
  apply (omap_lookup_seq (fun k => xr.offset (xr.unravel shp k) (xr.strides shp)) [] xs).
  intros k Hk. simpl in Hk. rewrite offset_unravel, <- Hlen.
  apply Nat.mod_small. lia.
Qed.

End RowMajor.

Lemma transpose_var_ordered (v : xr.DataArray) :
  xr.dims v = canonical_dims -> length (xr.shape v) = 3%nat ->
  xr.size (xr.data v) = xr.product (xr.shape v) ->
  xr.transpose_var canonical_dims v = v.
Proof.
  destruct v as [dims shp dat att]. simpl. intros -> Hshp Hsize.
  unfold xr.transpose_var. cbn [xr.dims xr.shape xr.data xr.attrs].
  change (omap (fun d => xr.index_of d canonical_dims) canonical_dims)
    with (seq 0 3).
  rewrite <- Hshp. rewrite omap_lookup_all. f_equal.
  destruct dat as [xs|xs|xs|xs]; simpl in Hsize; by rewrite transpose_flat_id.
Qed.

(** X18: a field the server delivers in the order (day, lat, lon) reaches
    the staged dataset with its cells, shape and attributes untouched:
    line 89 does not move the cells of a field that is already in order,
    and only its first dimension is renamed. *)
Theorem harmonize_keeps_ordered_field (dlist : list xr.Dataset) (m ds : xr.Dataset)
    (n : string) (v : xr.DataArray) :
  xr.merge dlist = Ok m -> harmonize dlist = Ok ds ->
  m !! n = Some v ->
  n ≠ "tmmn"%string -> n ≠ "tmmx"%string -> n ≠ "day"%string -> n ≠ "time"%string ->
  xr.dims v = ["day"; "lat"; "lon"]%string ->
  length (xr.shape v) = 3%nat ->
  xr.size (xr.data v) = xr.product (xr.shape v) ->
  ds !! n = Some (xr.mkDataArray canonical_dims (xr.shape v) (xr.data v) (xr.attrs v)).
Proof.
  intros Hm H Hv Hn1 Hn2 Hn3 Hn4 Hdims Hshp Hsize.
  destruct (harmonize_steps dlist ds H) as (m' & ds1 & ds2 & ds3 & Hm' & Hr & Hn & Ht & He).
  assert (m' = m) as -> by congruence.
  destruct (rename_day_time _ _ Hr) as (_ & _ & _ & R4).
  destruct (normalize_layout _ _ Hn) as [_ N2].
  destruct (enforce_layout _ _ He) as [_ E2].
  rewrite E2 by done. rewrite (transpose_Ok _ _ _ Ht), lookup_fmap.
  rewrite N2 by done. rewrite R4 by done. rewrite Hv. simpl. f_equal.
  rewrite Hdims.
  change (filter _ _) with canonical_dims.
  rewrite transpose_var_ordered; simpl; try done.
  - unfold xr.rename_dims. by rewrite Hdims.
  - by rewrite Hdims.
Qed.

Lemma harmonize_keeps_ordered_field_witness :
  Sample.harmonized !! "precipitation_amount"%string =
  Some (xr.mkDataArray canonical_dims [2; 1; 2]%nat (xr.Floats Sample.ones)
          {[ "units"%string := "mm"%string ]}).
Proof.
  apply (harmonize_keeps_ordered_field Sample.fetched Sample.merged Sample.harmonized
           "precipitation_amount"%string (Sample.grid "mm" Sample.ones)).
  - by_vm.
  - by_vm.
  - by_vm.
  - discriminate.
  - discriminate.
  - discriminate.
  - discriminate.
  - reflexivity.
  - reflexivity.
  - reflexivity.
Defined.

(** ** Dates: printing, parsing, adding days *)

Section Dates.
Import datetime.

Lemma digit_val_digit_char (n : Z) : digit_val (digit_char n) = Some (n mod 10).
Proof.
  unfold digit_val. rewrite nat_of_digit_char.
  pose proof (Z.mod_pos_bound n 10 ltac:(lia)).
  replace ((48 <=? 48 + n mod 10) && (48 + n mod 10 <=? 57)) with true
    by (symmetry; apply andb_true_intro; lia).
  f_equal. lia.
Qed.

Lemma parse_Y_four_digits (y : Z) (rest : string) :
  0 <= y <= 9999 ->
  parse_Y (String (digit_char (y / 1000)) (String (digit_char (y / 100))
             (String (digit_char (y / 10)) (String (digit_char y) rest))))
  = Some (y, rest).
Proof.
  intros Hy. unfold parse_Y. rewrite !digit_val_digit_char.
  f_equal. f_equal. Z.to_euclidean_division_equations. lia.
Qed.

Lemma small_cases (n : Z) (k : nat) :
  1 <= n <= Z.of_nat k -> n ∈ (Z.of_nat <$> seq 1 k).
Proof.
  intros Hn. apply list_elem_of_fmap. exists (Z.to_nat n). split; [lia|].
  apply elem_of_seq. lia.
Qed.

Lemma parse_m_dash_two_digits (m : Z) (rest : string) :
  1 <= m <= 12 ->
  parse_m_dash (String (digit_char (m / 10)) (String (digit_char m) (String dash rest)))
  = Some (m, rest).
Proof.
  intros Hm. apply (small_cases m 12) in Hm.
  revert m Hm. apply Forall_forall.
  repeat (constructor; [reflexivity|]). constructor.
Qed.

Lemma parse_d_two_digits (d : Z) :
  1 <= d <= 31 ->
  parse_d (String (digit_char (d / 10)) (String (digit_char d) EmptyString))
  = Some (d, EmptyString).
Proof.
  intros Hd. apply (small_cases d 31) in Hd.
  revert d Hd. apply Forall_forall.
  repeat (constructor; [reflexivity|]). constructor.
Qed.

Lemma strptime_strftime (d : date) :
  valid d -> 1000 <= year d <= 9999 -> strptime (strftime d) = Ok d.
Proof.
  destruct d as [y m dd]. unfold valid. simpl. intros (Hy & Hm & Hd) Hmax.
  unfold strftime, year_digits. simpl year. simpl month. simpl day.
  replace (y <? 10) with false by lia.
  replace (y <? 100) with false by lia.
  replace (y <? 1000) with false by lia.
  unfold four_digits, two_digits.
  cbv beta iota delta [String.append].
  unfold strptime. rewrite parse_Y_four_digits by lia.
  rewrite bool_decide_eq_true_2 by reflexivity.
  rewrite parse_m_dash_two_digits by lia.
  pose proof (days_in_month_pos y m).
  rewrite parse_d_two_digits by lia.
  replace ((1 <=? y) && (dd <=? days_in_month y m)) with true
    by (symmetry; apply andb_true_intro; lia).
  reflexivity.
Qed.

Lemma ymd2ord_bounds (d : date) :
  valid d -> 1 <= ymd2ord d /\ (year d <= 9999 <-> ymd2ord d <= MAXORDINAL).
Proof.
  destruct d as [y m dd]. unfold valid, ymd2ord. simpl. intros (Hy & Hm & Hd).
  pose proof (days_before_month_bounds y m Hm) as [Hb1 Hb2].
  pose proof (days_before_year_nonneg y Hy).
  split; [lia|]. split.
  - intros Hle.
    pose proof (days_before_year_succ y Hy).
    pose proof (days_before_year_mono (y + 1) 10000 ltac:(lia)).
    change (days_before_year 10000) with MAXORDINAL in *. lia.
  - intros Hle. destruct (Z_le_gt_dec y 9999) as [|Hgt]; [done|].
    pose proof (days_before_year_mono 10000 y ltac:(lia)).
    change (days_before_year 10000) with MAXORDINAL in *. lia.
Qed.

Lemma add_days_Ok (d d' : date) (n : Z) :
  add_days d n = Ok d' <->
  1 <= ymd2ord d + n <= MAXORDINAL /\ d' = ord2ymd (ymd2ord d + n).
Proof.
  unfold add_days.
  destruct ((0 <? ymd2ord d + n) && (ymd2ord d + n <=? MAXORDINAL)) eqn:Hc.
  - apply andb_true_iff in Hc as [H1 H2]. split.
    + intros [= <-]. split; [lia|done].
    + intros [_ ->]. done.
  - split; [done|]. intros [H _].
    apply andb_false_iff in Hc as [Hc | Hc]; lia.
Qed.

End Dates.

(** X19: a date with a year of four digits, printed with the format of
    line 99, is read back by the format of line 97 as the same date: what
    one run writes as a date can be the End_Date of a later run. *)
Theorem date_format_round_trip (d : datetime.date) :
  datetime.valid d -> 1000 <= datetime.year d <= 9999 ->
  datetime.strptime (datetime.strftime d) = Ok d.
Proof. intros Hv Hy. apply strptime_strftime; [exact Hv|exact Hy]. Qed.

Lemma date_format_round_trip_witness :
  datetime.strptime (datetime.strftime (datetime.mkDate 2024 2 29))
  = Ok (datetime.mkDate 2024 2 29).
Proof.
  apply date_format_round_trip.
  - repeat split; vm_compute; discriminate.
  - split; vm_compute; discriminate.
Defined.

(** X20: adding days to a date composes and can be undone: adding [a] and
    then [b] days is adding [a + b] days, and adding [-n] days after [n]
    days gives the date back. *)
Theorem add_days_round_trip (d d1 : datetime.date) (a : Z) :
  datetime.add_days d a = Ok d1 ->
  (forall b d2, datetime.add_days d1 b = Ok d2 -> datetime.add_days d (a + b) = Ok d2) /\
  (datetime.valid d -> datetime.year d <= 9999 -> datetime.add_days d1 (- a) = Ok d).
Proof.
  intros H1. apply add_days_Ok in H1 as [Ha ->].
  destruct (ymd2ord_ord2ymd (datetime.ymd2ord d + a)) as [_ Ho]; [lia|].
  split.
  - intros b d2 H2. apply add_days_Ok in H2 as [Hb ->].
    apply add_days_Ok. rewrite Ho in *. split; [lia|]. f_equal. lia.
  - intros Hv Hy. apply add_days_Ok. rewrite Ho.
    destruct (ymd2ord_bounds d Hv) as [Hlo Hb]. apply Hb in Hy.
    split; [lia|].
    replace (datetime.ymd2ord d + a + - a) with (datetime.ymd2ord d) by lia.
    symmetry. by apply ord2ymd_ymd2ord.
Qed.

Lemma add_days_round_trip_witness :
  datetime.add_days (datetime.mkDate 2024 3 1) (- 1) = Ok (datetime.mkDate 2024 2 29).
Proof.
  apply (add_days_round_trip (datetime.mkDate 2024 2 29) (datetime.mkDate 2024 3 1) 1).
  - reflexivity.
  - repeat split; vm_compute; discriminate.
  - vm_compute; discriminate.
Defined.

(** ** The window step: when it runs and what it hands on *)

Lemma forecast_window_inv (config_dict : Config) (merge_ds : xr.Dataset)
    (kwargs : list (string * pyval)) :
  forecast_window config_dict merge_ds = Ok kwargs <->
  exists t d,
    last_time merge_ds = Ok t /\ t ≠ xr.NaT /\
    xr.NaT < t + pd.ns_per_day <= pd.int64_max /\
    datetime.strptime (End_Date config_dict) = Ok d /\
    datetime.ymd2ord d < datetime.MAXORDINAL /\
    kwargs = substitutions config_dict
               (datetime.strftime (datetime.next_day d))
               (datetime.strftime (pd.date_of t))
               (datetime.strftime (datetime.next_day (pd.date_of t))).
Proof.
  assert (forall t, xr.NaT < t + pd.ns_per_day ->
            1 <= pd.epoch_ordinal + t / pd.ns_per_day) as Hord.
  { intros t Ht.
    assert (-106753 <= t / pd.ns_per_day).
    { apply Z.div_le_lower_bound; unfold pd.ns_per_day, xr.NaT in *; lia. }
    unfold pd.epoch_ordinal. lia. }
  unfold forecast_window. split.
  - intros H.
    destruct (last_time merge_ds) as [t|]; simpl in H; [|done].
    destruct (datetime.strptime (End_Date config_dict)) as [d|] eqn:Hd; simpl in H; [|done].
    pose proof (strptime_ordinal _ _ Hd) as Hdo.
    pose proof (strptime_valid _ _ Hd) as (Hy & Hm & Hdd).
    destruct (datetime.add_days d 1) as [d1|] eqn:Ha; simpl in H; [|done].
    apply add_days_Ok in Ha as [Ha ->].
    unfold pd.to_datetime in H.
    destruct (bool_decide (t = xr.NaT)) eqn:Hnat; simpl in H; [done|].
    apply bool_decide_eq_false in Hnat.
    destruct ((xr.NaT <? t + 1 * pd.ns_per_day) && (t + 1 * pd.ns_per_day <=? pd.int64_max))
      eqn:Hc; simpl in H; [|done].
    apply andb_true_iff in Hc as [H1 H2].
    injection H as <-.
    exists t, d. repeat split; try done; try lia.
    rewrite last_time_day_after.
    rewrite (ord2ymd_succ (datetime.ymd2ord d)) by exact Hdo.
    rewrite ord2ymd_ymd2ord by (unfold datetime.valid; lia).
    rewrite (ord2ymd_succ (pd.epoch_ordinal + t / pd.ns_per_day)) by (apply Hord; lia).
    reflexivity.
  - intros (t & d & -> & Hnat & [H1 H2] & Hd & Hmax & ->). simpl.
    rewrite Hd. simpl.
    pose proof (strptime_ordinal _ _ Hd) as Hdo.
    pose proof (strptime_valid _ _ Hd) as (Hy & Hm & Hdd).
    unfold datetime.add_days.
    replace ((0 <? datetime.ymd2ord d + 1) && (datetime.ymd2ord d + 1 <=? datetime.MAXORDINAL))
      with true by (symmetry; apply andb_true_intro; lia).
    simpl.
    unfold pd.to_datetime. rewrite bool_decide_eq_false_2 by done. simpl.
    replace ((xr.NaT <? t + 1 * pd.ns_per_day) && (t + 1 * pd.ns_per_day <=? pd.int64_max))
      with true by (symmetry; apply andb_true_intro; lia).
    simpl. rewrite last_time_day_after.
    rewrite (ord2ymd_succ (datetime.ymd2ord d)) by exact Hdo.
    rewrite ord2ymd_ymd2ord by (unfold datetime.valid; lia).
    rewrite (ord2ymd_succ (pd.epoch_ordinal + t / pd.ns_per_day)) by (apply Hord; lia).
    reflexivity.
Qed.

(** X22: the substitutions the window step hands to the configuration
    writer: nine keys in the order of lines 106-114; the three dates of
    the prior window are those of the configuration, unchanged, and the
    three seasonal keys hold -9999.  The new start date is one day after
    End_Date; the end date lies in the years 1677 to 2262; the end and
    the restart date are read back by the format of line 97 as the dates
    they print, and so is the start date when End_Date has a year of at
    least 1000. *)
Theorem forecast_window_substitutions (config_dict : Config) (merge_ds : xr.Dataset)
    (kwargs : list (string * pyval)) :
  forecast_window config_dict merge_ds = Ok kwargs ->
  exists d t,
    datetime.strptime (End_Date config_dict) = Ok d /\
    last_time merge_ds = Ok t /\
    let start := datetime.next_day d in
    let stop := pd.date_of t in
    let restart := datetime.next_day (pd.date_of t) in
    kwargs = substitutions config_dict (datetime.strftime start)
               (datetime.strftime stop) (datetime.strftime restart) /\
    datetime.add_days start (- 1) = Ok d /\
    1677 <= datetime.year stop /\ datetime.year restart <= 2262 /\
    datetime.strptime (datetime.strftime stop) = Ok stop /\
    datetime.strptime (datetime.strftime restart) = Ok restart /\
    (1000 <= datetime.year d ->
     datetime.strptime (datetime.strftime start) = Ok start).
Proof.
  intros H. apply forecast_window_inv in H
    as (t & d & Ht & Hnat & Hr & Hd & Hmax & ->).
  exists d, t. split; [exact Hd|]. split; [exact Ht|].
  set (start := datetime.next_day d). set (stop := pd.date_of t).
  set (restart := datetime.next_day stop). cbv zeta.
  pose proof (strptime_valid _ _ Hd) as (Hy & Hv).
  pose proof (strptime_ordinal _ _ Hd) as Hdo.
  assert (datetime.valid d) as Hvd by (split; [lia|exact Hv]).
  destruct (ymd2ord_next_day d Hvd) as [Hvn Hon]. fold start in Hvn, Hon.
  assert (612410 <= pd.epoch_ordinal + t / pd.ns_per_day <= 825915) as Ho.
  { assert (-106753 <= t / pd.ns_per_day).
    { apply Z.div_le_lower_bound; unfold pd.ns_per_day, xr.NaT in *; lia. }
    assert (t / pd.ns_per_day <= 106752).
    { apply Z.div_le_upper_bound; unfold pd.ns_per_day, pd.int64_max in *; lia. }
    unfold pd.epoch_ordinal. lia. }
  destruct (ymd2ord_ord2ymd (pd.epoch_ordinal + t / pd.ns_per_day)) as [Hvt Hot]; [lia|].
  fold (pd.date_of t) in Hvt, Hot. fold stop in Hvt, Hot.
  destruct (ymd2ord_next_day stop Hvt) as [Hvr Hor]. fold restart in Hvr, Hor.
  assert (1677 <= datetime.year stop) as Hlo.
  { apply (year_of_ordinal stop 1677 Hvt).
    change (datetime.days_before_year 1677) with 612147. lia. }
  assert (datetime.year restart <= 2262) as Hhi.
  { apply (year_of_ordinal restart 2262 Hvr).
    change (datetime.days_before_year (2262 + 1)) with 826178. lia. }
  assert (datetime.year stop <= 2262) as Hhi'.
  { apply (year_of_ordinal stop 2262 Hvt).
    change (datetime.days_before_year (2262 + 1)) with 826178. lia. }
  assert (1677 <= datetime.year restart) as Hlo'.
  { apply (year_of_ordinal restart 1677 Hvr).
    change (datetime.days_before_year 1677) with 612147. lia. }
  split; [reflexivity|]. split; [|split; [exact Hlo|split; [exact Hhi|split; [|split]]]].
  - apply add_days_Ok. rewrite Hon.
    replace (datetime.ymd2ord d + 1 + - 1) with (datetime.ymd2ord d) by lia.
    split; [unfold datetime.MAXORDINAL in *; lia|].
    symmetry. by apply ord2ymd_ymd2ord.
  - apply strptime_strftime; [exact Hvt|lia].
  - apply strptime_strftime; [exact Hvr|lia].
  - intros Hy1000. apply strptime_strftime; [exact Hvn|]. split.
    + unfold start, datetime.next_day.
      destruct (_ <? _); [simpl; lia|]. destruct (_ <? _); simpl; lia.
    + apply ymd2ord_bounds; [exact Hvn|]. lia.
Qed.

Lemma forecast_window_substitutions_witness :
  exists d t,
    datetime.strptime (End_Date Sample.config) = Ok d /\
    last_time Sample.timeline = Ok t /\
    let start := datetime.next_day d in
    let stop := pd.date_of t in
    let restart := datetime.next_day (pd.date_of t) in
    substitutions Sample.config "2024-01-11" "2024-04-09" "2024-04-10"
    = substitutions Sample.config (datetime.strftime start)
        (datetime.strftime stop) (datetime.strftime restart) /\
    datetime.add_days start (- 1) = Ok d /\
    1677 <= datetime.year stop /\ datetime.year restart <= 2262 /\
    datetime.strptime (datetime.strftime stop) = Ok stop /\
    datetime.strptime (datetime.strftime restart) = Ok restart /\
    (1000 <= datetime.year d ->
     datetime.strptime (datetime.strftime start) = Ok start).
Proof.
  apply (forecast_window_substitutions Sample.config Sample.timeline).
  by_vm.
Defined.

(** ** NaN cells *)







(** ** One temperature cell, from the merge to the staged dataset *)

Lemma normalize_keeps_shape (ds ds' : xr.Dataset) (var : string) (v : xr.DataArray) :
  normalize ds = Ok ds' -> designated var -> ds !! var = Some v ->
  exists v', ds' !! var = Some v' /\ xr.dims v' = xr.dims v /\
    xr.shape v' = xr.shape v /\ xr.size (xr.data v') = xr.size (xr.data v).
Proof.
  intros H Hvar Hv.
  destruct (normalize_lookup _ _ _ Hvar H) as (v0 & uin & d' & Hv0 & _ & Hd & Hv').
  assert (v0 = v) as -> by congruence.
  eexists. split; [exact Hv'|].
  repeat split. simpl. apply (normalized_values_size _ _ _ Hd).
Qed.

Lemma harmonize_ordered_temperature (m ds1 ds2 ds3 : xr.Dataset) (var : string)
    (v : xr.DataArray) (u : cf_units.Unit) :
  xr.rename "day" "time" m = Ok ds1 -> normalize ds1 = Ok ds2 ->
  xr.transpose ["time"; "lat"; "lon"]%string ds2 = Ok ds3 ->
  designated var -> m !! var = Some v ->
  xr.dims v = ["day"; "lat"; "lon"]%string -> length (xr.shape v) = 3%nat ->
  xr.size (xr.data v) = xr.product (xr.shape v) ->
  units_in m var = Ok u ->
  forall i, cell ds3 var i = normalized u <$> cell m var i.
Proof.
  intros Hr Hn Ht Hvar Hv Hdims Hshp Hsize Hu i.
  assert (var ≠ "day"%string /\ var ≠ "time"%string) as [Hnd Hnt]
    by (destruct Hvar as [-> | ->]; done).
  destruct (rename_day_time _ _ Hr) as (_ & _ & _ & R4).
  pose proof (R4 var Hnd Hnt) as Hv1. rewrite Hv in Hv1. simpl in Hv1.
  destruct (normalize_spec ds1 ds2 var Hvar Hn) as (u' & Hu' & _ & Hcells).
  assert (u' = u) as ->.
  { unfold units_in, xr.getitem in Hu, Hu'. rewrite Hv1 in Hu'. rewrite Hv in Hu.
    simpl in Hu, Hu'. congruence. }
  destruct (normalize_keeps_shape ds1 ds2 var _ Hn Hvar Hv1)
    as (v2 & Hv2 & Hd2 & Hs2 & Hz2).
  simpl in Hd2, Hs2, Hz2. rewrite Hdims in Hd2.
  assert (xr.dims v2 = canonical_dims) as Hc2 by (rewrite Hd2; reflexivity).
  assert (ds3 !! var = Some v2) as Hv3.
  { rewrite (transpose_Ok _ _ _ Ht), lookup_fmap, Hv2.
    cbn [fmap option_fmap option_map]. f_equal.
    rewrite Hc2. change (filter _ _) with canonical_dims.
    apply transpose_var_ordered; [exact Hc2|congruence|congruence]. }
  assert (cell ds3 var i = cell ds2 var i) as ->
    by (unfold cell; by rewrite Hv3, Hv2).
  rewrite Hcells. f_equal. unfold cell. rewrite Hv1, Hv. done.
Qed.

(** X27: one temperature cell from the merge to the staged dataset, for
    temperature fields delivered in the order (day, lat, lon): the cell at
    a position of the staged "tmmn" and "tmmx" is the normalised value
    of the merged cell at the same position, each converted from the unit
    of its own variable, the two exchanged where the normalised minimum
    is greater than the normalised maximum and that maximum is not
    -32767. *)
Theorem harmonize_temperature_cell (dlist : list xr.Dataset) (m ds : xr.Dataset)
    (vn vx : xr.DataArray) (un ux : cf_units.Unit) (i : nat) (a b : float) :
  xr.merge dlist = Ok m -> harmonize dlist = Ok ds ->
  m !! "tmmn"%string = Some vn -> m !! "tmmx"%string = Some vx ->
  xr.dims vn = ["day"; "lat"; "lon"]%string -> xr.dims vx = ["day"; "lat"; "lon"]%string ->
  length (xr.shape vn) = 3%nat -> length (xr.shape vx) = 3%nat ->
  xr.size (xr.data vn) = xr.product (xr.shape vn) ->
  xr.size (xr.data vx) = xr.product (xr.shape vx) ->
  units_in m "tmmn" = Ok un -> units_in m "tmmx" = Ok ux ->
  cell m "tmmn" i = Some a -> cell m "tmmx" i = Some b ->
  let lo := normalized un a in
  let hi := normalized ux b in
  let swap := F64.gt lo hi && F64.ne hi fill_value in
  cell ds "tmmn" i = Some (if swap then hi else lo) /\
  cell ds "tmmx" i = Some (if swap then lo else hi).
Proof.
  intros Hm H Hvn Hvx Hdn Hdx Hsn Hsx Hzn Hzx Hun Hux Ha Hb lo hi swap.
  destruct (harmonize_steps dlist ds H) as (m' & ds1 & ds2 & ds3 & Hm' & Hr & Hn & Ht & He).
  assert (m' = m) as -> by congruence.
  apply (enforce_cells ds3 ds i lo hi He).
  - rewrite (harmonize_ordered_temperature m ds1 ds2 ds3 "tmmn" vn un); try done.
    + by rewrite Ha.
    + by left.
  - rewrite (harmonize_ordered_temperature m ds1 ds2 ds3 "tmmx" vx ux); try done.
    + by rewrite Hb.
    + by right.
Qed.

Lemma harmonize_temperature_cell_witness :
  let lo := normalized cf_units.kelvin (F64.of_Z 285) in
  let hi := normalized cf_units.kelvin (F64.of_Z 280) in
  let swap := F64.gt lo hi && F64.ne hi fill_value in
  cell Sample.harmonized "tmmn" 1 = Some (if swap then hi else lo) /\
  cell Sample.harmonized "tmmx" 1 = Some (if swap then lo else hi).
Proof.
  apply (harmonize_temperature_cell Sample.fetched Sample.merged Sample.harmonized
           (Sample.grid "K" Sample.tmin_K) (Sample.grid "K" Sample.tmax_K)).
  - by_vm.
  - by_vm.
  - by_vm.
  - by_vm.
  - reflexivity.
  - reflexivity.
  - reflexivity.
  - reflexivity.
  - reflexivity.
  - reflexivity.
  - by_vm.
  - by_vm.
  - by_vm.
  - by_vm.
Defined.

(** ** Grids of float32 *)

(** X28: on a float32 grid the normalisation converts each cell in double
    precision and stores the result rounded to float32 (the cell is left
    as it is when the recorded unit already is degC); a cell whose stored
    value lies below -30000 then holds -32767. *)
Theorem normalize_converts_float32 (ds ds' : xr.Dataset) (var : string)
    (uin : cf_units.Unit) (i : nat) (x : float) :
  normalize ds = Ok ds' ->
  designated var ->
  units_in ds var = Ok uin ->
  cell32 ds var i = Some x ->
  let c := if decide (uin = cf_units.celsius) then x
           else F32.round (cf_units.convert1 uin cf_units.celsius x) in
  cell32 ds' var i = Some (if F64.lt c threshold then fill_value else c).
Proof.
  intros H Hvar Hin Hx.
  destruct (normalize_lookup _ _ _ Hvar H) as (v & u & d' & Hv & Hu & Hd & Hv').
  assert (u = uin) as -> by congruence.
  unfold cell32 in *. rewrite Hv in Hx. rewrite Hv'. simpl.
  destruct (xr.data v) as [xs|xs|xs|xs]; simpl in Hd; try discriminate;
    injection Hd as <-.
  rewrite list_lookup_fmap, Hx. reflexivity.
Qed.

Lemma normalize_converts_float32_witness :
  cell32 (Sample.after normalize Scenario.kelvin_floats32) "tmmx" 0
  = Some (F32.round (cf_units.convert1 cf_units.kelvin cf_units.celsius (F64.of_Z 280))) /\
  F32.round (cf_units.convert1 cf_units.kelvin cf_units.celsius (F64.of_Z 280))
  = S754_finite false 7712414254497792 (-50) /\
  cf_units.convert1 cf_units.kelvin cf_units.celsius (F64.of_Z 280)
  = S754_finite false 7712414361872000 (-50).
Proof.
  split; [|split; by_vm].
  apply (normalize_converts_float32 Scenario.kelvin_floats32
           (Sample.after normalize Scenario.kelvin_floats32) "tmmx" cf_units.kelvin
           0 (F64.of_Z 280)).
  - by_vm.
  - right. reflexivity.
  - by_vm.
  - reflexivity.
Defined.

(** ** Grids of integers *)

(** X29: an integer grid is not converted: line 84 converts a float copy
    of it, so after the normalisation each cell holds its original value
    (or -32767 where that value lies below -30000) while the unit
    attribute says degC. *)
Theorem normalize_keeps_integers (ds ds' : xr.Dataset) (var : string)
    (i : nat) (n : Z) :
  normalize ds = Ok ds' ->
  designated var ->
  cell_int ds var i = Some n ->
  unit_attr ds' var = Some "degC"%string /\
  cell_int ds' var i = Some (if n <? -30000 then -32767 else n).
Proof.
  intros H Hvar Hn.
  destruct (normalize_lookup _ _ _ Hvar H) as (v & u & d' & Hv & _ & Hd & Hv').
  split.
  - unfold unit_attr. rewrite Hv'. simpl. apply lookup_insert_eq.
  - unfold cell_int in *. rewrite Hv in Hn. rewrite Hv'. simpl.
    destruct (xr.data v) as [xs|xs|xs|xs]; simpl in Hd; try discriminate;
      injection Hd as <-.
    rewrite list_lookup_fmap, Hn. reflexivity.
Qed.

Lemma normalize_keeps_integers_witness :
  units_in Scenario.kelvin_ints "tmmn" = Ok cf_units.kelvin /\
  unit_attr (Sample.after normalize Scenario.kelvin_ints) "tmmn" = Some "degC"%string /\
  cell_int (Sample.after normalize Scenario.kelvin_ints) "tmmn" 0 = Some 270.
Proof.
  split; [by_vm|].
  apply (normalize_keeps_integers Scenario.kelvin_ints
           (Sample.after normalize Scenario.kelvin_ints) "tmmn" 0 270).
  - by_vm.
  - left. reflexivity.
  - reflexivity.
Defined.
